(** * darknet.js: the binding layer of [DarknetBase] / [Darknet]

    A shallow embedding of the TypeScript class [DarknetBase] (and of its
    compiled twin [Darknet]): the image codec ([rgbToDarknet],
    [imageToRGBBuffer]), the memory ring ([makeMemory], [resetMemory],
    [rememberNet]), the decoder ([bufferToDetections]), the orchestration
    of one detection ([_detectAsync], [detectAsync], [detectFromImageAsync])
    and the constructor's validation of its configuration. *)

From Stdlib Require Import ZArith List Lia Bool.
From Stdlib Require Import Init.Byte Strings.Ascii Strings.String.
From Stdlib Require Import Floats.SpecFloat.
From stdpp Require Import base numbers list strings.

Import ListNotations.
Local Open Scope Z_scope.

(** ** JavaScript values

    A JavaScript [number] is an IEEE-754 binary64 value and a [Float32Array]
    element a binary32 value: both are [spec_float]s, computed with the
    Standard Library's executable specification of IEEE arithmetic.  A ring
    capacity is taken to be an integer (or [NaN]); the counters of the
    memory ring then only ever hold integers or [NaN], and are kept apart as
    [JS.int], with [%], [Math.min] and [||] as JavaScript defines them on
    such values. *)

Module JS.

Definition number := spec_float.

Definition of_Z (n : Z) : number := binary_normalize 53 1024 n 0 false.

Definition div (x y : number) : number := SFdiv 53 1024 x y.
Definition mul (x y : number) : number := SFmul 53 1024 x y.

(** [x > y]; false as soon as one side is [NaN]. *)
Definition gt (x y : number) : bool := SFltb y x.

Definition zero : number := S754_zero false.
Definition half : number := Eval vm_compute in div (of_Z 1) (of_Z 2).

(** Truthiness of a number: [0], [-0] and [NaN] are falsy. *)
Definition truthy (x : number) : bool :=
  match x with
  | S754_zero _ | S754_nan => false
  | _ => true
  end.

(** [Math.fround]: what a store into a [Float32Array] keeps of a number. *)
Definition fround (x : number) : spec_float :=
  match x with
  | S754_finite s m e => binary_round 24 128 s m e
  | _ => x
  end.

(** Reading a [Float32Array] element gives back a number: the value is
    kept, the mantissa is re-aligned to 53 bits. *)
Definition of_float32 (x : spec_float) : number :=
  match x with
  | S754_finite s m e => binary_round 53 1024 s m e
  | _ => x
  end.

(** The integer part of a number, rounded towards zero; [0] for [NaN] and
    the infinities, as [ToUint8] wants it. *)
Definition truncate (x : number) : Z :=
  match x with
  | S754_finite s m e => cond_Zopp s (Z.shiftl (Z.pos m) e)
  | _ => 0
  end.

Definition byte_of_Z (n : Z) : byte :=
  match Byte.of_N (Z.to_N n) with
  | Some b => b
  | None => x00
  end.

(** [ToUint8]: what a store into a [Buffer] (a [Uint8Array]) keeps. *)
Definition ToUint8 (x : number) : byte := byte_of_Z (truncate x mod 256).

Definition Z_of_byte (b : byte) : Z := Z.of_N (Byte.to_N b).

Definition of_byte (b : byte) : number := of_Z (Z_of_byte b).

(** Reading [buffer[i]]: a byte, or [undefined] out of range, which
    arithmetic turns into [NaN]. *)
Definition of_element (o : option byte) : number :=
  match o with
  | Some b => of_byte b
  | None => S754_nan
  end.

Definition of_float32_element (o : option spec_float) : number :=
  match o with
  | Some x => of_float32 x
  | None => S754_nan
  end.

(** The integers-or-[NaN] of the ring counters. *)
Inductive int := Int (z : Z) | NaN.

Definition succ (x : int) : int :=
  match x with
  | Int z => Int (z + 1)
  | NaN => NaN
  end.

(** [x % y]: the remainder has the sign of the dividend; [NaN] when the
    divisor is zero. *)
Definition rem (x y : int) : int :=
  match x, y with
  | Int a, Int b => if b =? 0 then NaN else Int (Z.rem a b)
  | _, _ => NaN
  end.

(** [Math.min x y]. *)
Definition min (x y : int) : int :=
  match x, y with
  | Int a, Int b => Int (Z.min a b)
  | _, _ => NaN
  end.

(** [x < y] on the counters; false as soon as one side is [NaN]. *)
Definition lt (x y : int) : Prop :=
  match x, y with
  | Int a, Int b => a < b
  | _, _ => False
  end.

(** [o || d] for an optional counter: [undefined], [0] and [NaN] are falsy. *)
Definition or_else (o : option int) (d : int) : int :=
  match o with
  | Some (Int 0) | Some NaN | None => d
  | Some x => x
  end.

(** Truthiness of an optional string: [undefined] and the empty string are
    falsy. *)
Definition truthy_string (o : option string) : bool :=
  match o with
  | Some s => negb (String.eqb s EmptyString)
  | None => false
  end.

(** Truthiness of an optional number. *)
Definition truthy_number (o : option number) : bool :=
  match o with
  | Some x => truthy x
  | None => false
  end.

(** [s.split('\n')]. *)
Fixpoint split_lines_aux (s : string) (line : string) : list string :=
  match s with
  | EmptyString => [String.rev line]
  | String a rest =>
      if Ascii.eqb a "010"%char
      then String.rev line :: split_lines_aux rest EmptyString
      else split_lines_aux rest (String a line)
  end.

Definition split_lines (s : string) : list string := split_lines_aux s EmptyString.

(** [l.join('\n')]. *)
Definition join_lines (l : list string) : string :=
  String.concat (String "010"%char EmptyString) l.

End JS.

(** ** Loops and arrays

    [for_ n body] is [for (i = 0; i < n; ++i) body]: the loop variable runs
    upwards and the body updates the loop's state.  Arrays (a [Buffer], a
    [Float32Array]) are lists read with [!!] and written with [<[i:=x]>]; a
    typed array ignores a write out of range, as the list insertion does. *)

Definition for_ {S : Type} (n : nat) (body : nat -> S -> S) (s : S) : S :=
  foldl (fun s i => body i s) s (seq 0 n).

(** ** Native structs

    Pointers into native memory are opaque addresses, except where the
    binding reads through them: a [float_pointer] is modelled by the floats
    found at each offset from it. *)

Definition pointer := Z.
Definition float_pointer := nat -> spec_float.

Record BBOX := { bbox_x : JS.number; bbox_y : JS.number; bbox_w : JS.number; bbox_h : JS.number }.

Record DETECTION := {
  det_bbox : BBOX;
  det_classes : Z;
  det_prob : float_pointer;
  det_mask : pointer;
  det_objectness : JS.number;
  det_sort_class : Z
}.

Record IMAGE := {
  image_w : nat;
  image_h : nat;
  image_c : nat;
  image_data : float_pointer
}.

Record METADATA := { meta_classes : nat; meta_names : string }.

(** ** Image codec *)

Section ImageCodec.
Local Open Scope nat_scope.

(** [Buffer.allocUnsafe n]: [n] bytes of whatever the allocator held. *)
Variable allocUnsafe : nat -> list byte.

Definition rgbToDarknet (buffer : list byte) (w h c : nat) : list spec_float :=
  let imageElements := w * h * c in
  let floatBuff := replicate imageElements JS.zero in
  let step := w * c in
  for_ h (fun i floatBuff =>
    for_ c (fun k floatBuff =>
      for_ w (fun j floatBuff =>
        <[ k * w * h + i * w + j :=
             JS.fround (JS.div (JS.of_element (buffer !! (i * step + j * c + k)))
                               (JS.of_Z 255)) ]> floatBuff)
      floatBuff)
    floatBuff)
  floatBuff.

Definition imageToRGBBuffer (image : IMAGE) : list byte :=
  let w := image_w image in
  let h := image_h image in
  let c := image_c image in
  let imageElements := w * h * c in
  let imageData := image_data image <$> seq 0 imageElements in
  let rgbBuffer := allocUnsafe (length imageData) in
  let step := c * w in
  for_ h (fun i rgbBuffer =>
    for_ c (fun k rgbBuffer =>
      for_ w (fun j rgbBuffer =>
        <[ i * step + j * c + k :=
             JS.ToUint8 (JS.mul (JS.of_float32_element (imageData !! (k * w * h + i * w + j)))
                                (JS.of_Z 255)) ]> rgbBuffer)
      rgbBuffer)
    rgbBuffer)
  rgbBuffer.

End ImageCodec.

(** The native memory that holds a [Float32Array]: its elements, then
    zeroes. *)
Definition float_memory (a : list spec_float) : float_pointer :=
  fun i => nth i a JS.zero.

(** A sample scales exactly when the float stored for it, times 255, is the
    sample again as a real number: [255 * m * 2^e = b]. *)
Definition scales_exactly (b : byte) : bool :=
  match JS.fround (JS.div (JS.of_byte b) (JS.of_Z 255)) with
  | S754_zero _ => JS.Z_of_byte b =? 0
  | S754_finite false m e =>
      match e with
      | Zneg p => 255 * Z.pos m =? JS.Z_of_byte b * 2 ^ Z.pos p
      | _ => 255 * Z.pos m * 2 ^ e =? JS.Z_of_byte b
      end
  | _ => false
  end.

(** One sample through both directions of the codec. *)
Definition roundtrip_sample (b : byte) : byte :=
  JS.ToUint8 (JS.mul (JS.of_float32 (JS.fround (JS.div (JS.of_byte b) (JS.of_Z 255))))
                     (JS.of_Z 255)).

(** [b / 255] computed in single precision, correctly rounded. *)
Definition quotient32 (b : byte) : spec_float :=
  SFdiv 24 128 (binary_normalize 24 128 (JS.Z_of_byte b) 0 false)
               (binary_normalize 24 128 255 0 false).

Definition sample_distance (x y : byte) : Z :=
  Z.abs (JS.Z_of_byte x - JS.Z_of_byte y).

(** ** The native library

    [call] lists the entry points of [ffi.Library] the class invokes, with
    their arguments; [ret] is the type of what each returns. *)

Inductive call : Type :=
| load_network (cfg weights : string) (clear : Z)
| network_output_size (net : pointer)
| network_memory_make (count : JS.int) (size : Z)
| network_memory_free (memory : pointer) (count : JS.int)
| load_image_color (path : string) (w h : Z)
| float_to_image (w h c : nat) (data : list spec_float)
| network_predict_image (net : pointer) (image : IMAGE)
| network_remember_memory (net : pointer) (memory : pointer) (index : JS.int)
| network_avg_predictions (net : pointer) (size : Z) (memory : pointer)
    (slots : JS.int) (w h : nat) (thresh hier : JS.number)
| do_nms_obj (dets : pointer) (num : Z) (classes : nat) (nms : JS.number)
| free_detections (dets : pointer) (num : Z)
| free_image (image : IMAGE).

(** [network_avg_predictions] returns the detection array and stores the
    number of its records through [pnum]; both are its result here. *)
Definition ret (c : call) : Type :=
  match c with
  | load_network _ _ _ => pointer
  | network_output_size _ => Z
  | network_memory_make _ _ => pointer
  | load_image_color _ _ _ => IMAGE
  | float_to_image _ _ _ _ => IMAGE
  | network_avg_predictions _ _ _ _ _ _ _ _ => (pointer * Z)%type
  | _ => unit
  end.

(** The world outside the class.  Native calls are numbered in the order
    they are made; [returns t c] is what call [c], made as call number [t],
    returns; [rejects t c] is the error, if any, that an asynchronous call
    hands to its callback; [ref_get t p i] is record [i] of the detection
    array at [p] as native memory holds it after [t] calls.  A synchronous
    call has no error channel: it returns. *)
Class Library := {
  returns : nat -> forall c : call, ret c;
  rejects : nat -> call -> option string;
  ref_get : nat -> pointer -> nat -> DETECTION;
  readFileSync : string -> string + string   (* the content, or the error thrown *)
}.

(** ** The class and its state *)

Record DarknetBase := {
  meta : METADATA;
  net : pointer;
  netSize : Z;
  names : list string;
  memoryIndex : JS.int;
  memorySlotsUsed : JS.int;
  memoryCount : JS.int;
  memory : pointer
}.

Record IConfig := {
  thresh : option JS.number;
  hier_thresh : option JS.number;
  nms : option JS.number
}.

Record IBufferImage := {
  buf_b : list byte;   (* [b] *)
  buf_w : nat;         (* [w] *)
  buf_h : nat;         (* [h] *)
  buf_c : nat          (* [c] *)
}.

Record IDarknetConfig := {
  weights : option string;
  config : option string;
  config_names : option (list string);
  namefile : option string;
  config_memory : option JS.int
}.

Record Detection := {
  name : option string;   (* [None] is [undefined] *)
  prob : JS.number;
  box : BBOX
}.

(** An event of the trace: a native call and whether it came back without
    an error. *)
Record event := { ev_call : call; ev_ok : bool }.

Record World := { this : DarknetBase; trace : list event }.

Inductive result (A : Type) : Type :=
| Ok (a : A)
| Throw (e : string).
Arguments Ok {A} a.
Arguments Throw {A} e.

(** Methods run in a state-and-exception monad over the world; a rejected
    promise that is awaited is an exception of the awaiting method. *)
Definition M (A : Type) : Type := World -> result A * World.

#[global] Instance M_ret : MRet M := fun A a w => (Ok a, w).

#[global] Instance M_bind : MBind M := fun A B k m w =>
  match m w with
  | (Ok a, w') => k a w'
  | (Throw e, w') => (Throw e, w')
  end.

Definition throw {A} (e : string) : M A := fun w => (Throw e, w).

Definition get : M DarknetBase := fun w => (Ok (this w), w).

Definition modify (f : DarknetBase -> DarknetBase) : M unit :=
  fun w => (Ok tt, {| this := f (this w); trace := trace w |}).

Definition clock : M nat := fun w => (Ok (length (trace w)), w).

Definition log (c : call) (ok : bool) (w : World) : World :=
  {| this := this w; trace := trace w ++ [{| ev_call := c; ev_ok := ok |}] |}.

Section Calls.
Context `{Library}.

(** [this.darknet.f(args)] *)
Definition call_sync (c : call) : M (ret c) :=
  fun w => (Ok (returns (length (trace w)) c), log c true w).

(** [await new Promise((res, rej) => this.darknet.f.async(args, (e, d) => e ? rej(e) : res(d)))] *)
Definition call_async (c : call) : M (ret c) :=
  fun w =>
    let t := length (trace w) in
    match rejects t c with
    | Some e => (Throw e, log c false w)
    | None => (Ok (returns t c), log c true w)
    end.

End Calls.

Definition set_memoryIndex (v : JS.int) (o : DarknetBase) : DarknetBase :=
  {| meta := meta o; net := net o; netSize := netSize o; names := names o;
     memoryIndex := v; memorySlotsUsed := memorySlotsUsed o;
     memoryCount := memoryCount o; memory := memory o |}.

Definition set_memorySlotsUsed (v : JS.int) (o : DarknetBase) : DarknetBase :=
  {| meta := meta o; net := net o; netSize := netSize o; names := names o;
     memoryIndex := memoryIndex o; memorySlotsUsed := v;
     memoryCount := memoryCount o; memory := memory o |}.

Definition set_memoryCount (v : JS.int) (o : DarknetBase) : DarknetBase :=
  {| meta := meta o; net := net o; netSize := netSize o; names := names o;
     memoryIndex := memoryIndex o; memorySlotsUsed := memorySlotsUsed o;
     memoryCount := v; memory := memory o |}.

Definition set_memory (v : pointer) (o : DarknetBase) : DarknetBase :=
  {| meta := meta o; net := net o; netSize := netSize o; names := names o;
     memoryIndex := memoryIndex o; memorySlotsUsed := memorySlotsUsed o;
     memoryCount := memoryCount o; memory := v |}.

(** ** Memory ring, decoder and detection *)

Section Detector.
Context `{Library}.

Definition makeMemory : M unit :=
  modify (set_memoryIndex (JS.Int 0));;
  o ← get;
  m ← call_sync (network_memory_make (memoryCount o) (netSize o));
  modify (set_memory m);;
  modify (set_memorySlotsUsed (JS.Int 0)).

(** [resetMemory({memory = this.memoryCount} = {})]: the argument is [None]
    when the caller leaves the object or its field out. *)
Definition resetMemory (arg : option JS.int) : M unit :=
  o ← get;
  let memory_ := default (memoryCount o) arg in
  call_sync (network_memory_free (memory o) (memoryCount o));;
  modify (set_memoryCount memory_);;
  makeMemory.

Definition rememberNet : M unit :=
  o ← get;
  call_async (network_remember_memory (net o) (memory o) (memoryIndex o));;
  modify (fun o => set_memoryIndex (JS.rem (JS.succ (memoryIndex o)) (memoryCount o)) o);;
  modify (fun o => set_memorySlotsUsed (JS.min (JS.succ (memorySlotsUsed o)) (memoryCount o)) o).

Definition avgPrediction (w h : nat) (thresh hier : JS.number) : M (pointer * Z) :=
  o ← get;
  call_async (network_avg_predictions (net o) (netSize o) (memory o)
                (memorySlotsUsed o) w h thresh hier).

Definition getArrayFromBuffer (buffer : float_pointer) (length : nat) : list JS.number :=
  for_ length (fun i array => array ++ [JS.of_float32 (buffer i)]) [].

(** [buffer] is the detection array as the binding reads it, record by
    record; a negative [length] runs the loop zero times. *)
Definition bufferToDetections (o : DarknetBase) (buffer : nat -> DETECTION) (length : Z)
  : list Detection :=
  for_ (Z.to_nat length) (fun i detections =>
    let det := buffer i in
    let prob := getArrayFromBuffer (det_prob det) (meta_classes (meta o)) in
    for_ (meta_classes (meta o)) (fun j detections =>
      match prob !! j with
      | Some p =>
          if JS.gt p JS.zero then
            let b := det_bbox det in
            detections ++ [{| name := names o !! j;
                              prob := p;
                              box := {| bbox_x := bbox_x b; bbox_y := bbox_y b;
                                        bbox_w := bbox_w b; bbox_h := bbox_h b |} |}]
          else detections
      | None => detections   (* [undefined > 0] is false *)
      end)
    detections)
  [].

Definition _detectAsync (net : pointer) (meta : METADATA) (image : IMAGE)
    (thresh hier_thresh nms : JS.number) : M (list Detection) :=
  call_async (network_predict_image net image);;
  rememberNet;;
  '(dets, num) ← avgPrediction (image_w image) (image_h image) thresh hier_thresh;
  call_async (do_nms_obj dets num (meta_classes meta) nms);;
  o ← get;
  t ← clock;
  let detections := bufferToDetections o (ref_get t dets) num in
  call_sync (free_detections dets num);;
  mret detections.

Definition getImageFromPathAsync (path : string) : M IMAGE :=
  call_async (load_image_color path 0 0).

Definition RGBBufferToImageAsync (buffer : list byte) (w h c : nat) : M IMAGE :=
  let floatBuff := rgbToDarknet buffer w h c in
  call_async (float_to_image w h c floatBuff).

(** The first lines of [detectAsync] and of [detectFromImageAsync]. *)
Definition thresholds (config : option IConfig) : JS.number * JS.number * JS.number :=
  let config := default {| thresh := None; hier_thresh := None; nms := None |} config in
  let thresh := if JS.truthy_number (thresh config)
                then default JS.half (thresh config) else JS.half in
  let hier_thresh := if JS.truthy_number (hier_thresh config)
                     then default JS.half (hier_thresh config) else JS.half in
  let nms := if JS.truthy_number (nms config)
             then default JS.half (nms config) else JS.half in
  (thresh, hier_thresh, nms).

Definition detectAsync (image : string + IBufferImage) (config : option IConfig)
  : M (list Detection) :=
  let '(thresh, hier_thresh, nms) := thresholds config in
  let darkNetLoadedImage := match image with inl _ => true | inr _ => false end in
  imageData ← match image with
              | inl path => getImageFromPathAsync path
              | inr image => RGBBufferToImageAsync (buf_b image) (buf_w image)
                               (buf_h image) (buf_c image)
              end;
  o ← get;
  detection ← _detectAsync (net o) (meta o) imageData thresh hier_thresh nms;
  (if darkNetLoadedImage
   then call_async (free_image imageData)   (* memory is owned by the darknet lib *)
   else mret tt);;                          (* memory is owned by JS *)
  mret detection.

Definition detectFromImageAsync (image : IMAGE) (config : option IConfig)
  : M (list Detection) :=
  let '(thresh, hier_thresh, nms) := thresholds config in
  o ← get;
  _detectAsync (net o) (meta o) image thresh hier_thresh nms.

End Detector.

(** ** Construction *)

Definition set_names (v : list string) (o : DarknetBase) : DarknetBase :=
  {| meta := meta o; net := net o; netSize := netSize o; names := v;
     memoryIndex := memoryIndex o; memorySlotsUsed := memorySlotsUsed o;
     memoryCount := memoryCount o; memory := memory o |}.

Definition set_meta (v : METADATA) (o : DarknetBase) : DarknetBase :=
  {| meta := v; net := net o; netSize := netSize o; names := names o;
     memoryIndex := memoryIndex o; memorySlotsUsed := memorySlotsUsed o;
     memoryCount := memoryCount o; memory := memory o |}.

Definition set_net (v : pointer) (o : DarknetBase) : DarknetBase :=
  {| meta := meta o; net := v; netSize := netSize o; names := names o;
     memoryIndex := memoryIndex o; memorySlotsUsed := memorySlotsUsed o;
     memoryCount := memoryCount o; memory := memory o |}.

Definition set_netSize (v : Z) (o : DarknetBase) : DarknetBase :=
  {| meta := meta o; net := net o; netSize := v; names := names o;
     memoryIndex := memoryIndex o; memorySlotsUsed := memorySlotsUsed o;
     memoryCount := memoryCount o; memory := memory o |}.

(** The object before the constructor's body runs: the two field
    initialisers have run, every other field is still unset. *)
Definition blank : DarknetBase :=
  {| meta := {| meta_classes := 0; meta_names := EmptyString |};
     net := 0; netSize := 0; names := [];
     memoryIndex := JS.Int 0; memorySlotsUsed := JS.Int 0;
     memoryCount := JS.NaN; memory := 0 |}.

Section Construction.
Context `{Library}.

Definition constructor (config_ : option IDarknetConfig) : M unit :=
  match config_ with
  | None => throw "A config file is required"
  | Some cfg =>
      if negb (bool_decide (is_Some (config_names cfg))) && negb (JS.truthy_string (namefile cfg))
      then throw "Config must include detection class names"
      else
        names_ ← (if negb (bool_decide (is_Some (config_names cfg)))
                     && JS.truthy_string (namefile cfg)
                  then match readFileSync (default EmptyString (namefile cfg)) with
                       | inl content => mret (Some (JS.split_lines content))
                       | inr e => throw e
                       end
                  else mret (config_names cfg));
        match names_ with
        | None => throw "No names detected."
        | Some names_ =>
            if negb (JS.truthy_string (config cfg))
            then throw "Config must include location to yolo config file"
            else if negb (JS.truthy_string (weights cfg))
            then throw "config must include the path to trained weights"
            else
              let names := List.filter (fun a => (0 <? String.length a)%nat) names_ in
              modify (set_names names);;
              modify (set_memoryCount (JS.or_else (config_memory cfg) (JS.Int 3)));;
              modify (set_meta {| meta_classes := length names;
                                  meta_names := JS.join_lines names |});;
              net ← call_sync (load_network (default EmptyString (config cfg))
                                            (default EmptyString (weights cfg)) 0);
              modify (set_net net);;
              size ← call_sync (network_output_size net);
              modify (set_netSize size);;
              makeMemory
        end
  end.

(** [new DarknetBase(config)], in a world where no native call was made. *)
Definition new (config_ : option IDarknetConfig) : result unit * World :=
  constructor config_ {| this := blank; trace := [] |}.

(** The methods that change the memory ring, and their effect on the
    world. *)
Inductive method : Type :=
| MakeMemory
| RememberNet
| ResetMemory (arg : option JS.int)
| DetectAsync (image : string + IBufferImage) (config : option IConfig)
| DetectFromImageAsync (image : IMAGE) (config : option IConfig).

Definition invoke (m : method) (w : World) : World :=
  match m with
  | MakeMemory => snd (makeMemory w)
  | RememberNet => snd (rememberNet w)
  | ResetMemory arg => snd (resetMemory arg w)
  | DetectAsync image config => snd (detectAsync image config w)
  | DetectFromImageAsync image config => snd (detectFromImageAsync image config w)
  end.

(** The capacity a method installs, if it installs one. *)
Definition installs (m : method) : option JS.int :=
  match m with
  | ResetMemory arg => arg
  | _ => None
  end.

(** The worlds reachable from a successful construction by any sequence of
    methods, where every capacity handed in satisfies [valid]. *)
Inductive reachable (valid : JS.int -> Prop) : World -> Prop :=
| reachable_new config_ w :
    new config_ = (Ok tt, w) ->
    valid (memoryCount (this w)) ->
    reachable valid w
| reachable_invoke m w :
    reachable valid w ->
    from_option valid True (installs m) ->
    reachable valid (invoke m w).

End Construction.

(** ** What the trace tells

    The ring slots written since the ring was last made: those of the
    [network_remember_memory] calls that came back without an error. *)
Definition written_slots (tr : list event) : list JS.int :=
  foldl (fun acc e =>
           match ev_call e with
           | network_memory_make _ _ => []
           | network_remember_memory _ _ i => if ev_ok e then i :: acc else acc
           | _ => acc
           end) [] tr.

Definition is_free_detections (e : event) : bool :=
  match ev_call e with free_detections _ _ => true | _ => false end.

Definition is_free_image (e : event) : bool :=
  match ev_call e with free_image _ => true | _ => false end.

(** The allocations that came back: detection arrays and path-loaded
    images. *)
Definition is_detections_alloc (e : event) : bool :=
  match ev_call e with network_avg_predictions _ _ _ _ _ _ _ _ => ev_ok e | _ => false end.

Definition is_image_alloc (e : event) : bool :=
  match ev_call e with load_image_color _ _ _ => ev_ok e | _ => false end.

Definition count (p : event -> bool) (tr : list event) : nat :=
  length (List.filter p tr).

(** The events a method added to the trace. *)
Definition added (w w' : World) : list event := drop (length (trace w)) (trace w').

(** ** Auxiliary notions for the proofs

    A loop nest that stores one value per iteration is a left fold of
    [store] over the list of its stores, in the order it makes them. *)

Definition store {A : Type} (a : list A) (x : nat * A) : list A := <[x.1 := x.2]> a.

Definition writes {A : Type} (h c w : nat) (dst : nat -> nat -> nat -> nat)
    (val : nat -> nat -> nat -> A) : list (nat * A) :=
  i ← seq 0 h; k ← seq 0 c; j ← seq 0 w; [(dst i k j, val i k j)].

(** The probability the decoder reads for class [j] of a record, the
    classes of a record it finds positive, and the entry it emits for one. *)
Definition class_prob (det : DETECTION) (j : nat) : JS.number :=
  JS.of_float32 (det_prob det j).

Definition positive_classes (o : DarknetBase) (det : DETECTION) : list nat :=
  List.filter (fun j => JS.gt (class_prob det j) JS.zero) (seq 0 (meta_classes (meta o))).

Definition entry (o : DarknetBase) (det : DETECTION) (j : nat) : Detection :=
  {| name := names o !! j; prob := class_prob det j; box := det_bbox det |}.

Definition record_entries (o : DarknetBase) (det : DETECTION) : list Detection :=
  entry o det <$> positive_classes o det.

(** [k] calls of [rememberNet] in a row. *)
Fixpoint remember_times `{Library} (k : nat) : M unit :=
  match k with
  | O => mret tt
  | S k => remember_times k;; rememberNet
  end.

(** What a successful [rememberNet] does to the object. *)
Definition remembered (o : DarknetBase) : DarknetBase :=
  set_memorySlotsUsed (JS.min (JS.succ (memorySlotsUsed o)) (memoryCount o))
    (set_memoryIndex (JS.rem (JS.succ (memoryIndex o)) (memoryCount o)) o).

(** The invariant of the ring: populated count at most the capacity [N],
    write index in [[0, N)]. *)
Definition ring_invariant (w : World) : Prop :=
  exists N i u,
    memoryCount (this w) = JS.Int N /\
    memoryIndex (this w) = JS.Int i /\
    memorySlotsUsed (this w) = JS.Int u /\
    u <= N /\ 0 <= i < N.

(** A capacity that is an integer and at least 1. *)
Definition positive_capacity (n : JS.int) : Prop :=
  exists N, n = JS.Int N /\ 1 <= N.

Definition ev (c : call) (ok : bool) : event := {| ev_call := c; ev_ok := ok |}.

(** What an allocating call, made as call number [t], handed back. *)
Definition allocated_detections `{Library} (t : nat) (c : call) : option (pointer * Z) :=
  match c with
  | network_avg_predictions n s m u iw ih th hr =>
      Some (returns t (network_avg_predictions n s m u iw ih th hr))
  | _ => None
  end.

Definition allocated_image `{Library} (t : nat) (c : call) : option IMAGE :=
  match c with
  | load_image_color p iw ih => Some (returns t (load_image_color p iw ih))
  | _ => None
  end.

(** Every allocation that came back is matched by a free, in number. *)
Definition frees_match_allocations (tr : list event) : Prop :=
  count is_free_detections tr = count is_detections_alloc tr /\
  count is_free_image tr = count is_image_alloc tr.

(** The thresholds an averaging or suppression call was handed. *)
Definition passes_thresholds (th hr nm : JS.number) (e : event) : Prop :=
  match ev_call e with
  | network_avg_predictions _ _ _ _ _ _ th' hr' => th' = th /\ hr' = hr
  | do_nms_obj _ _ _ nm' => nm' = nm
  | _ => True
  end.

(** What [makeMemory] does to the object, given the ring it was handed. *)
Definition made (m : pointer) (o : DarknetBase) : DarknetBase :=
  set_memorySlotsUsed (JS.Int 0) (set_memory m (set_memoryIndex (JS.Int 0) o)).

(** The world a successful construction leaves, from the configuration and
    the class names it settled on. *)
Definition constructed `{Library} (cfg : IDarknetConfig) (names_ : list string) : World :=
  let names := List.filter (fun a => (0 <? String.length a)%nat) names_ in
  let c1 := load_network (default EmptyString (config cfg))
                         (default EmptyString (weights cfg)) 0 in
  let net := returns 0 c1 in
  let c2 := network_output_size net in
  let size := returns 1 c2 in
  let count := JS.or_else (config_memory cfg) (JS.Int 3) in
  let c3 := network_memory_make count size in
  {| this := {| meta := {| meta_classes := length names;
                           meta_names := JS.join_lines names |};
                net := net; netSize := size; names := names;
                memoryIndex := JS.Int 0; memorySlotsUsed := JS.Int 0;
                memoryCount := count; memory := returns 2 c3 |};
     trace := [ev c1 true; ev c2 true; ev c3 true] |}.

(** The class names the constructor settles on: the list given, else the
    lines of the names file, when it can be read. *)
Definition settled_names `{Library} (cfg : IDarknetConfig) : string + list string :=
  match config_names cfg with
  | Some l => inr l
  | None =>
      match readFileSync (default EmptyString (namefile cfg)) with
      | inl content => inr (JS.split_lines content)
      | inr e => inl e
      end
  end.

(** A configuration the constructor's checks turn down: no config object,
    neither names nor a names file, no yolo config path, or no weights
    path.  A string is missing when it is absent or empty. *)
Definition turned_down (config_ : option IDarknetConfig) : Prop :=
  match config_ with
  | None => True
  | Some cfg =>
      (config_names cfg = None /\ JS.truthy_string (namefile cfg) = false) \/
      JS.truthy_string (config cfg) = false \/
      JS.truthy_string (weights cfg) = false
  end.

(** Nothing was constructed: no native call was made and no field set. *)
Definition nothing_constructed (w : World) : Prop :=
  w = {| this := blank; trace := [] |}.

(** The populated count an averaging call was handed. *)
Definition passes_slots (u : JS.int) (e : event) : Prop :=
  match ev_call e with
  | network_avg_predictions _ _ _ n _ _ _ _ => n = u
  | _ => True
  end.

Definition handed (u : JS.int) (th hr nm : JS.number) (e : event) : Prop :=
  passes_slots u e /\ passes_thresholds th hr nm e.

(** Every averaging call of a trace was handed a slot count [n] such that
    the slots [0 .. n-1] had all been written since the ring was made. *)
Definition avg_safe (tr : list event) : Prop :=
  forall tr1 e tr2 net_ size_ mem_ n iw ih th hr,
    tr = tr1 ++ e :: tr2 ->
    ev_call e = network_avg_predictions net_ size_ mem_ n iw ih th hr ->
    forall s, 0 <= s -> JS.lt (JS.Int s) n -> JS.Int s ∈ written_slots tr1.

(** The populated count never runs ahead of the slots written: with a
    capacity [N >= 1] the slots below the count are written and the write
    index follows the count until the ring is full; with any other capacity
    the count never gets above zero. *)
Definition slots_written (o : DarknetBase) (tr : list event) : Prop :=
  (exists N u i,
     memoryCount o = JS.Int N /\ 1 <= N /\
     memorySlotsUsed o = JS.Int u /\ memoryIndex o = JS.Int i /\
     0 <= u <= N /\ 0 <= i < N /\ (u < N -> i = u) /\
     forall s, 0 <= s < u -> JS.Int s ∈ written_slots tr) \/
  (exists N u, memoryCount o = JS.Int N /\ N <= 0 /\ memorySlotsUsed o = JS.Int u /\ u <= 0) \/
  (memoryCount o = JS.NaN /\
   (memorySlotsUsed o = JS.Int 0 \/ memorySlotsUsed o = JS.NaN)).

Definition detector_invariant (o : DarknetBase) (tr : list event) : Prop :=
  slots_written o tr /\ avg_safe tr /\ meta_classes (meta o) = length (names o).

(** A decoded entry is well formed: it is named after a class of the
    detector and its probability is above zero. *)
Definition well_formed (o : DarknetBase) (d : Detection) : Prop :=
  exists j nm, names o !! j = Some nm /\ name d = Some nm /\ JS.gt (prob d) JS.zero = true.

(** No native call made from now on fails. *)
Definition native_calls_succeed `{Library} (w : World) : Prop :=
  forall t c, (length (trace w) <= t)%nat -> rejects t c = None.

(** What a detection call owes the native library and its caller: the
    averaging is handed the populated count its own [rememberNet] left,
    every averaging so far read written slots only, what is returned is a
    list of well-formed entries, and a list is returned when no native call
    fails. *)
Definition detection_safe `{Library} (w : World) (r : result (list Detection) * World) : Prop :=
  Forall (passes_slots (memorySlotsUsed (remembered (this w)))) (added w (snd r)) /\
  avg_safe (trace (snd r)) /\
  (forall ds, fst r = Ok ds -> Forall (well_formed (this w)) ds) /\
  (native_calls_succeed w -> exists ds, fst r = Ok ds).

(** Calls that neither make the ring, nor write a slot, nor average. *)
Definition neutral (c : call) : Prop :=
  match c with
  | network_memory_make _ _ | network_remember_memory _ _ _
  | network_avg_predictions _ _ _ _ _ _ _ _ => False
  | _ => True
  end.


(** ** Sample worlds

    Two native libraries to run the class against: [calm], where no call
    fails, and [nms_fails], where [do_nms_obj] hands an error to its
    callback.  Both read the same names file and hold the same detection
    record: classes 0 and 2 at probability 0.5. *)

Definition newline : string := String "010"%char EmptyString.

Definition sample_image : IMAGE :=
  {| image_w := 2; image_h := 1; image_c := 3; image_data := fun _ => JS.zero |}.

Definition half32 : spec_float := S754_finite false 8388608 (-24).

Definition sample_box : BBOX :=
  {| bbox_x := JS.half; bbox_y := JS.half; bbox_w := JS.of_Z 1; bbox_h := JS.of_Z 1 |}.

Definition sample_detection : DETECTION :=
  {| det_bbox := sample_box;
     det_classes := 3;
     det_prob := fun j => match j with
                          | 0%nat | 2%nat => half32
                          | _ => JS.zero
                          end;
     det_mask := 0;
     det_objectness := JS.half;
     det_sort_class := -1 |}.

Definition sample_returns (t : nat) (c : call) : ret c :=
  match c with
  | load_network _ _ _ => 1000
  | network_output_size _ => 8
  | network_memory_make _ _ => 2000
  | load_image_color _ _ _ => sample_image
  | float_to_image w h c data =>
      {| image_w := w; image_h := h; image_c := c; image_data := float_memory data |}
  | network_avg_predictions _ _ _ _ _ _ _ _ => (3000, 1)
  | _ => tt
  end.

Definition sample_files (path : string) : string + string :=
  if String.eqb path "coco.names"
  then inl ("person" ++ newline ++ "bicycle" ++ newline ++ newline ++ "car")%string
  else inr "ENOENT: no such file or directory"%string.

Definition calm : Library :=
  {| returns := sample_returns;
     rejects := fun _ _ => None;
     ref_get := fun _ _ _ => sample_detection;
     readFileSync := sample_files |}.

Definition nms_fails : Library :=
  {| returns := sample_returns;
     rejects := fun _ c => match c with
                           | do_nms_obj _ _ _ _ => Some "do_nms_obj failed"%string
                           | _ => None
                           end;
     ref_get := fun _ _ _ => sample_detection;
     readFileSync := sample_files |}.

Definition sample_config : IDarknetConfig :=
  {| weights := Some "yolo.weights"%string;
     config := Some "yolo.cfg"%string;
     config_names := Some ["a"; "b"; "c"]%string;
     namefile := None;
     config_memory := None |}.

Definition unreadable_config : IDarknetConfig :=
  {| weights := Some "yolo.weights"%string;
     config := Some "yolo.cfg"%string;
     config_names := None;
     namefile := Some "missing.names"%string;
     config_memory := None |}.

Definition sample_buffer : list byte :=
  [x00; x01; x02; x7f; x80; x81; xfd; xfe; xff; x10; x20; x30].

Definition sample_bytes : IBufferImage :=
  {| buf_b := sample_buffer; buf_w := 2; buf_h := 2; buf_c := 3 |}.

(** ** Further vocabulary

    A float of the planar form is normalised when it lies in [[0, 1]]. *)
Definition one32 : spec_float := binary_normalize 24 128 1 0 false.

Definition normalised (x : spec_float) : bool :=
  SFleb JS.zero x && SFleb x one32.

Definition non_finite (x : spec_float) : bool :=
  match x with
  | S754_nan | S754_infinity _ => true
  | _ => false
  end.

(** Detections of several images in a row, each with its own config,
    dropping what they return. *)
Fixpoint detect_each `{Library} (calls : list (IMAGE * option IConfig)) : M unit :=
  match calls with
  | [] => mret tt
  | (image, config) :: calls => detectFromImageAsync image config;; detect_each calls
  end.

(** A [network_remember_memory] call of the trace came back without an
    error. *)
Definition remember_ok (tr : list event) : bool :=
  existsb (fun e => match ev_call e with
                    | network_remember_memory _ _ _ => ev_ok e
                    | _ => false
                    end) tr.

(** The native calls of one [_detectAsync], in the order it makes them. *)
Definition detection_calls `{Library} (net_ : pointer) (meta_ : METADATA) (image : IMAGE)
    (th hr nm : JS.number) (w : World) : list call :=
  let o := this w in
  let c3 := network_avg_predictions (net o) (netSize o) (memory o)
              (memorySlotsUsed (remembered o)) (image_w image) (image_h image) th hr in
  let dn := returns (length (trace w) + 2) c3 in
  [network_predict_image net_ image;
   network_remember_memory (net o) (memory o) (memoryIndex o);
   c3;
   do_nms_obj dn.1 dn.2 (meta_classes meta_) nm;
   free_detections dn.1 dn.2].

#[global] Instance JS_int_eq_dec : EqDecision JS.int.
Proof. solve_decision. Defined.

(** The ledger of the memory ring: reading the calls of a trace in order,
    it keeps the ring that is live, if any, with the capacity it was made
    with; it breaks ([None]) when a ring is made while one is live, or when
    [network_memory_free] is handed anything but the live ring and its
    capacity.  The first component is the number of calls read. *)
Definition ledger_step `{Library} (st : option (nat * option (pointer * JS.int))) (e : event)
  : option (nat * option (pointer * JS.int)) :=
  match st with
  | None => None
  | Some (t, live) =>
      match ev_call e with
      | network_memory_make n sz =>
          match live with
          | None => Some (S t, Some (returns t (network_memory_make n sz), n))
          | Some _ => None
          end
      | network_memory_free p n =>
          match live with
          | Some ring => if decide (ring = (p, n)) then Some (S t, None) else None
          | None => None
          end
      | _ => Some (S t, live)
      end
  end.

Definition ledger `{Library} (tr : list event) : option (nat * option (pointer * JS.int)) :=
  foldl ledger_step (Some (0%nat, None)) tr.

(** The methods a user of the class can call. *)
Definition public (m : method) : Prop :=
  match m with
  | MakeMemory | RememberNet => False
  | _ => True
  end.

Inductive reachable_public `{Library} : World -> Prop :=
| public_new config_ w :
    new config_ = (Ok tt, w) -> reachable_public w
| public_invoke m w :
    reachable_public w -> public m -> reachable_public (invoke m w).

(** The ledger holds the object's ring, with the object's capacity. *)
Definition ring_kept `{Library} (w : World) : Prop :=
  ledger (trace w)
  = Some (length (trace w), Some (memory (this w), memoryCount (this w))).

(** A string without a line feed. *)
Fixpoint newline_free (s : string) : bool :=
  match s with
  | EmptyString => true
  | String a s => negb (Ascii.eqb a "010"%char) && newline_free s
  end.

(** ** The class [Darknet]

    The second class binds four more entry points ([set_batch_network],
    [letterbox_image], [free_network], [copy_image]), keeps the network both
    as a pointer ([netPointer]) and as the [NET] struct read through it
    ([net]), and offers the detection in stages.  Its codec
    ([rgbToDarknet], [imageToRGBBuffer]) and its decoder
    ([bufferToDetections]) are, word for word, those of [DarknetBase], and
    are the definitions above.  The trace lists the native calls in the
    order they are invoked. *)

Module Detector.

Inductive entry_point : Type :=
| shared (c : call)                  (* an entry point [DarknetBase] binds too *)
| set_batch_network (net : pointer) (b : Z)
| letterbox_image (image : IMAGE) (w h : Z)
| free_network (net : pointer)
| copy_image (image : IMAGE).

Definition returned (c : entry_point) : Type :=
  match c with
  | shared c => ret c
  | letterbox_image _ _ _ => IMAGE
  | copy_image _ => IMAGE
  | _ => unit
  end.

(** The fields of the [NET] struct the class reads. *)
Record NET := { NET_w : Z; NET_h : Z }.

(** As for [DarknetBase], with [ref_get_NET t p]: the [NET] struct at [p] as
    native memory holds it after [t] calls. *)
Class Library := {
  returns : nat -> forall c : entry_point, returned c;
  rejects : nat -> entry_point -> option string;
  ref_get : nat -> pointer -> nat -> DETECTION;
  ref_get_NET : nat -> pointer -> NET;
  readFileSync : string -> string + string
}.

Record Darknet := {
  meta : METADATA;
  netPointer : pointer;
  net : NET;
  netSize : Z;
  names : list string;
  memoryIndex : JS.int;
  memorySlotsUsed : JS.int;
  memoryCount : JS.int;
  memory : pointer
}.

Record event := { ev_call : entry_point; ev_ok : bool }.

Record World := { this : Darknet; trace : list event }.

Definition M (A : Type) : Type := World -> result A * World.

#[global] Instance M_ret : MRet M := fun A a w => (Ok a, w).

#[global] Instance M_bind : MBind M := fun A B k m w =>
  match m w with
  | (Ok a, w') => k a w'
  | (Throw e, w') => (Throw e, w')
  end.

Definition throw {A} (e : string) : M A := fun w => (Throw e, w).

Definition get : M Darknet := fun w => (Ok (this w), w).

Definition modify (f : Darknet -> Darknet) : M unit :=
  fun w => (Ok tt, {| this := f (this w); trace := trace w |}).

Definition clock : M nat := fun w => (Ok (length (trace w)), w).

Definition ev (c : entry_point) (ok : bool) : event := {| ev_call := c; ev_ok := ok |}.

Definition log (c : entry_point) (ok : bool) (w : World) : World :=
  {| this := this w; trace := trace w ++ [ev c ok] |}.

(** The object seen as a [DarknetBase], for the methods that are the same
    in both classes. *)
Definition as_base (o : Darknet) : DarknetBase :=
  Build_DarknetBase (meta o) (netPointer o) (netSize o) (names o)
    (memoryIndex o) (memorySlotsUsed o) (memoryCount o) (memory o).

Definition set_meta (v : METADATA) (o : Darknet) : Darknet :=
  {| meta := v; netPointer := netPointer o; net := net o; netSize := netSize o;
     names := names o; memoryIndex := memoryIndex o; memorySlotsUsed := memorySlotsUsed o;
     memoryCount := memoryCount o; memory := memory o |}.

Definition set_netPointer (v : pointer) (o : Darknet) : Darknet :=
  {| meta := meta o; netPointer := v; net := net o; netSize := netSize o;
     names := names o; memoryIndex := memoryIndex o; memorySlotsUsed := memorySlotsUsed o;
     memoryCount := memoryCount o; memory := memory o |}.

Definition set_net (v : NET) (o : Darknet) : Darknet :=
  {| meta := meta o; netPointer := netPointer o; net := v; netSize := netSize o;
     names := names o; memoryIndex := memoryIndex o; memorySlotsUsed := memorySlotsUsed o;
     memoryCount := memoryCount o; memory := memory o |}.

Definition set_netSize (v : Z) (o : Darknet) : Darknet :=
  {| meta := meta o; netPointer := netPointer o; net := net o; netSize := v;
     names := names o; memoryIndex := memoryIndex o; memorySlotsUsed := memorySlotsUsed o;
     memoryCount := memoryCount o; memory := memory o |}.

Definition set_names (v : list string) (o : Darknet) : Darknet :=
  {| meta := meta o; netPointer := netPointer o; net := net o; netSize := netSize o;
     names := v; memoryIndex := memoryIndex o; memorySlotsUsed := memorySlotsUsed o;
     memoryCount := memoryCount o; memory := memory o |}.

Definition set_memoryIndex (v : JS.int) (o : Darknet) : Darknet :=
  {| meta := meta o; netPointer := netPointer o; net := net o; netSize := netSize o;
     names := names o; memoryIndex := v; memorySlotsUsed := memorySlotsUsed o;
     memoryCount := memoryCount o; memory := memory o |}.

Definition set_memorySlotsUsed (v : JS.int) (o : Darknet) : Darknet :=
  {| meta := meta o; netPointer := netPointer o; net := net o; netSize := netSize o;
     names := names o; memoryIndex := memoryIndex o; memorySlotsUsed := v;
     memoryCount := memoryCount o; memory := memory o |}.

Definition set_memoryCount (v : JS.int) (o : Darknet) : Darknet :=
  {| meta := meta o; netPointer := netPointer o; net := net o; netSize := netSize o;
     names := names o; memoryIndex := memoryIndex o; memorySlotsUsed := memorySlotsUsed o;
     memoryCount := v; memory := memory o |}.

Definition set_memory (v : pointer) (o : Darknet) : Darknet :=
  {| meta := meta o; netPointer := netPointer o; net := net o; netSize := netSize o;
     names := names o; memoryIndex := memoryIndex o; memorySlotsUsed := memorySlotsUsed o;
     memoryCount := memoryCount o; memory := v |}.

(** The object before the constructor's body runs. *)
Definition blank : Darknet :=
  {| meta := {| meta_classes := 0; meta_names := EmptyString |};
     netPointer := 0; net := {| NET_w := 0; NET_h := 0 |}; netSize := 0; names := [];
     memoryIndex := JS.Int 0; memorySlotsUsed := JS.Int 0;
     memoryCount := JS.NaN; memory := 0 |}.

Section Methods.
Context `{Library}.

Definition call_sync (c : entry_point) : M (returned c) :=
  fun w => (Ok (returns (length (trace w)) c), log c true w).

Definition call_async (c : entry_point) : M (returned c) :=
  fun w =>
    let t := length (trace w) in
    match rejects t c with
    | Some e => (Throw e, log c false w)
    | None => (Ok (returns t c), log c true w)
    end.

(** A promise that is made but not awaited: the call is invoked, its
    outcome kept for later. *)
Definition promise {A : Type} (m : M A) : M (result A) :=
  fun w => let '(r, w') := m w in (Ok r, w').

(** Returning a promise hands its outcome to the caller. *)
Definition settle {A : Type} (r : result A) : M A :=
  fun w => (r, w).

Definition freeMemory : M unit :=
  o ← get;
  call_sync (shared (network_memory_free (memory o) (memoryCount o))).

Definition makeMemory : M unit :=
  modify (set_memoryIndex (JS.Int 0));;
  o ← get;
  m ← call_sync (shared (network_memory_make (memoryCount o) (netSize o)));
  modify (set_memory m);;
  modify (set_memorySlotsUsed (JS.Int 0)).

Definition resetMemory (arg : option JS.int) : M unit :=
  o ← get;
  let memory_ := default (memoryCount o) arg in
  freeMemory;;
  modify (set_memoryCount memory_);;
  makeMemory.

Definition dispose : M unit :=
  o ← get;
  call_sync (free_network (netPointer o));;
  freeMemory.

Definition freeImage (image : IMAGE) : M unit :=
  call_sync (shared (free_image image)).

Definition freeDetection (dets : pointer) (num : Z) : M unit :=
  call_sync (shared (free_detections dets num)).

(** [letterboxImage] as the TypeScript source has it: the letterboxed image
    is awaited before the copy is freed. *)
Definition letterboxImage (image : IMAGE) : M IMAGE :=
  myCopy ← call_sync (copy_image image);
  o ← get;
  letterboxed ← call_async (letterbox_image myCopy (NET_w (net o)) (NET_h (net o)));
  freeImage myCopy;;
  mret letterboxed.

(** [letterboxImage] as the compiled [darknet.js] has it: the promise is
    made, the copy freed, the promise returned. *)
Definition letterboxImage_js (image : IMAGE) : M IMAGE :=
  myCopy ← call_sync (copy_image image);
  o ← get;
  letterboxed ← promise (call_async (letterbox_image myCopy (NET_w (net o)) (NET_h (net o))));
  freeImage myCopy;;
  settle letterboxed.

Definition rememberNet : M unit :=
  o ← get;
  call_async (shared (network_remember_memory (netPointer o) (memory o) (memoryIndex o)));;
  modify (fun o => set_memoryIndex (JS.rem (JS.succ (memoryIndex o)) (memoryCount o)) o);;
  modify (fun o => set_memorySlotsUsed (JS.min (JS.succ (memorySlotsUsed o)) (memoryCount o)) o).

Definition avgPrediction (w h : nat) (thresh hier : JS.number) : M (pointer * Z) :=
  o ← get;
  call_async (shared (network_avg_predictions (netPointer o) (netSize o) (memory o)
                        (memorySlotsUsed o) w h thresh hier)).

Definition detection (letterBoxImage : IMAGE) (w h : nat) (thresh hier : JS.number)
  : M (pointer * Z) :=
  o ← get;
  call_async (shared (network_predict_image (netPointer o) letterBoxImage));;
  rememberNet;;
  '(dets, num) ← avgPrediction w h thresh hier;
  mret (dets, num).

Definition NMS (dets : pointer) (num : Z) (nms : JS.number) : M unit :=
  o ← get;
  call_async (shared (do_nms_obj dets num (meta_classes (meta o)) nms)).

(** [interpretation] reads the array as native memory holds it when it is
    called. *)
Definition interpretation (dets : pointer) (num : Z) : M (list Detection) :=
  o ← get;
  t ← clock;
  mret (bufferToDetections (as_base o) (ref_get t dets) num).

Definition _detectAsync (net : pointer) (meta : METADATA) (image : IMAGE)
    (thresh hier_thresh nms : JS.number) : M (list Detection) :=
  call_async (shared (network_predict_image net image));;
  rememberNet;;
  '(dets, num) ← avgPrediction (image_w image) (image_h image) thresh hier_thresh;
  call_async (shared (do_nms_obj dets num (meta_classes meta) nms));;
  o ← get;
  t ← clock;
  let detections := bufferToDetections (as_base o) (ref_get t dets) num in
  call_sync (shared (free_detections dets num));;
  mret detections.

(** The stages in the order [_detectAsync] goes through them. *)
Definition staged (image : IMAGE) (thresh hier nms : JS.number) : M (list Detection) :=
  '(dets, num) ← detection image (image_w image) (image_h image) thresh hier;
  NMS dets num nms;;
  detections ← interpretation dets num;
  freeDetection dets num;;
  mret detections.

Definition constructor (config_ : option IDarknetConfig) : M unit :=
  match config_ with
  | None => throw "A config file is required"
  | Some cfg =>
      if negb (bool_decide (is_Some (config_names cfg))) && negb (JS.truthy_string (namefile cfg))
      then throw "Config must include detection class names"
      else
        names_ ← (if negb (bool_decide (is_Some (config_names cfg)))
                     && JS.truthy_string (namefile cfg)
                  then match readFileSync (default EmptyString (namefile cfg)) with
                       | inl content => mret (Some (JS.split_lines content))
                       | inr e => throw e
                       end
                  else mret (config_names cfg));
        match names_ with
        | None => throw "No names detected."
        | Some names_ =>
            if negb (JS.truthy_string (config cfg))
            then throw "Config must include location to yolo config file"
            else if negb (JS.truthy_string (weights cfg))
            then throw "config must include the path to trained weights"
            else
              let names := List.filter (fun a => (0 <? String.length a)%nat) names_ in
              modify (set_names names);;
              modify (set_memoryCount (JS.or_else (config_memory cfg) (JS.Int 3)));;
              modify (set_meta {| meta_classes := length names;
                                  meta_names := JS.join_lines names |});;
              p ← call_sync (shared (load_network (default EmptyString (config cfg))
                                                  (default EmptyString (weights cfg)) 0));
              modify (set_netPointer p);;
              t ← clock;
              modify (set_net (ref_get_NET t p));;
              call_sync (set_batch_network p 1);;
              size ← call_sync (shared (network_output_size p));
              modify (set_netSize size);;
              makeMemory
        end
  end.

Definition new (config_ : option IDarknetConfig) : result unit * World :=
  constructor config_ {| this := blank; trace := [] |}.

End Methods.

End Detector.

(** The library [DarknetBase] sees when both classes are loaded on the same
    native library: the shared entry points and the same files. *)
Definition base_library (L : Detector.Library) : Library :=
  {| returns := fun t c => Detector.returns t (Detector.shared c);
     rejects := fun t c => Detector.rejects t (Detector.shared c);
     ref_get := Detector.ref_get;
     readFileSync := Detector.readFileSync |}.

(** A native library for [Darknet] where no call fails, with the answers
    and the files of the sample worlds. *)
Definition sample_detector_returns (t : nat) (c : Detector.entry_point) : Detector.returned c :=
  match c with
  | Detector.shared c => sample_returns t c
  | Detector.letterbox_image image w h =>
      {| image_w := Z.to_nat w; image_h := Z.to_nat h; image_c := image_c image;
         image_data := image_data image |}
  | Detector.copy_image image => image
  | _ => tt
  end.

Definition sample_detector : Detector.Library :=
  {| Detector.returns := sample_detector_returns;
     Detector.rejects := fun _ _ => None;
     Detector.ref_get := fun _ _ _ => sample_detection;
     Detector.ref_get_NET := fun _ _ => {| Detector.NET_w := 416; Detector.NET_h := 416 |};
     Detector.readFileSync := sample_files |}.

(** A float array as a pixel store: 1.5 for every sample but the first,
    which is not a number. *)
Definition sample_pixels : float_pointer :=
  fun i => match i with
           | O => S754_nan
           | _ => S754_finite false 12582912 (-23)
           end.

Definition names_file_config : IDarknetConfig :=
  {| weights := Some "yolo.weights"%string;
     config := Some "yolo.cfg"%string;
     config_names := None;
     namefile := Some "coco.names"%string;
     config_memory := Some (JS.Int 0) |}.

(** * Properties *)

(** ** Loop nests as lists of stores *)

Lemma foldl_bind {A B C : Type} (g : C -> B -> C) (f : A -> list B) (l : list A) (a : C) :
  foldl g a (l ≫= f) = foldl (fun a x => foldl g a (f x)) a l.
Proof.
  revert a; induction l as [|x l IH]; intros a; [reflexivity|].
  rewrite bind_cons, foldl_app. apply IH.
Qed.

Lemma foldl_ext_in {A B : Type} (f g : A -> B -> A) (l : list B) (a : A) :
  (forall a x, x ∈ l -> f a x = g a x) -> foldl f a l = foldl g a l.
Proof.
  revert a; induction l as [|x l IH]; intros a Hfg; [reflexivity|].
  simpl. rewrite Hfg by apply list_elem_of_here.
  apply IH. intros a' y Hy. apply Hfg. by apply list_elem_of_further.
Qed.

Section Stores.
Context {A : Type}.
Local Open Scope nat_scope.

Lemma for_nest_writes (h c w : nat) dst (val : nat -> nat -> nat -> A) (arr : list A) :
  for_ h (fun i a => for_ c (fun k a => for_ w (fun j a => <[dst i k j := val i k j]> a) a) a) arr
  = foldl store arr (writes h c w dst val).
Proof.
  unfold for_, writes. rewrite foldl_bind.
  apply foldl_ext_in; intros a i _.
  rewrite foldl_bind.
  apply foldl_ext_in; intros a' k _.
  rewrite foldl_bind.
  apply foldl_ext_in; intros a'' j _.
  reflexivity.
Qed.

Lemma elem_of_writes (h c w : nat) dst (val : nat -> nat -> nat -> A) q v :
  (q, v) ∈ writes h c w dst val <->
  exists i k j, i < h /\ k < c /\ j < w /\ q = dst i k j /\ v = val i k j.
Proof.
  unfold writes. rewrite list_elem_of_bind. split.
  - intros (i & Hk & Hi). apply list_elem_of_bind in Hk as (k & Hj & Hk).
    apply list_elem_of_bind in Hj as (j & Hx & Hj).
    apply list_elem_of_singleton in Hx. inversion Hx; subst.
    apply elem_of_seq in Hi, Hk, Hj. exists i, k, j. repeat split; lia.
  - intros (i & k & j & Hi & Hk & Hj & -> & ->).
    exists i. split; [|apply elem_of_seq; lia].
    apply list_elem_of_bind. exists k. split; [|apply elem_of_seq; lia].
    apply list_elem_of_bind. exists j. split; [|apply elem_of_seq; lia].
    by apply list_elem_of_singleton.
Qed.

Lemma length_foldl_store (ws : list (nat * A)) (arr : list A) :
  length (foldl store arr ws) = length arr.
Proof.
  revert arr; induction ws as [|[p x] ws IH]; intros arr; [reflexivity|].
  simpl. rewrite IH. unfold store. apply length_insert.
Qed.

(** After a run of stores, a cell holds [v] when every store to it stored
    [v] and either one was made or the cell held [v] before. *)
Lemma lookup_foldl_store (ws : list (nat * A)) (arr : list A) q v :
  q < length arr ->
  (forall v', (q, v') ∈ ws -> v' = v) ->
  (exists v', (q, v') ∈ ws) \/ arr !! q = Some v ->
  foldl store arr ws !! q = Some v.
Proof.
  revert arr; induction ws as [|[p x] ws IH]; intros arr Hq Hall Hsome.
  - destruct Hsome as [[v' Hv']|Hv]; [|exact Hv]. by apply elem_of_nil in Hv'.
  - simpl. apply IH.
    + unfold store. by rewrite length_insert.
    + intros v' Hv'. apply Hall. by apply list_elem_of_further.
    + unfold store; simpl. destruct (decide (p = q)) as [->|Hne].
      * right. rewrite list_lookup_insert_eq by done.
        f_equal. apply Hall. apply list_elem_of_here.
      * destruct Hsome as [[v' Hv']|Hv].
        -- left. exists v'. apply elem_of_cons in Hv' as [Heq|Hin]; [|done].
           congruence.
        -- right. by rewrite list_lookup_insert_ne.
Qed.

(** What a loop nest leaves in the cell of iteration [(i, k, j)], when no
    other iteration stores something else there. *)
Lemma lookup_for_nest (h c w : nat) dst (val : nat -> nat -> nat -> A) (arr : list A) i k j :
  i < h -> k < c -> j < w ->
  dst i k j < length arr ->
  (forall i' k' j', i' < h -> k' < c -> j' < w ->
     dst i' k' j' = dst i k j -> val i' k' j' = val i k j) ->
  for_ h (fun i a => for_ c (fun k a => for_ w (fun j a => <[dst i k j := val i k j]> a) a) a) arr
    !! dst i k j = Some (val i k j).
Proof.
  intros Hi Hk Hj Hlen Huniq. rewrite for_nest_writes.
  apply lookup_foldl_store; [done| |].
  - intros v' Hv'. apply elem_of_writes in Hv' as (i' & k' & j' & ? & ? & ? & Hd & ->).
    by apply Huniq.
  - left. exists (val i k j). apply elem_of_writes. by exists i, k, j.
Qed.

Lemma length_for_nest (h c w : nat) dst (val : nat -> nat -> nat -> A) (arr : list A) :
  length (for_ h (fun i a => for_ c (fun k a =>
            for_ w (fun j a => <[dst i k j := val i k j]> a) a) a) arr) = length arr.
Proof. rewrite for_nest_writes. apply length_foldl_store. Qed.

End Stores.

(** ** Index arithmetic of the two layouts *)

Section Layouts.
Local Open Scope nat_scope.

Lemma planar_lt w h c i j k :
  i < h -> j < w -> k < c -> k * w * h + i * w + j < w * h * c.
Proof.
  intros Hi Hj Hk.
  assert (i * w + j < w * h) by nia.
  assert (k * (w * h) + w * h <= c * (w * h)) by nia.
  nia.
Qed.

Lemma interleaved_lt w h c i j k :
  i < h -> j < w -> k < c -> i * (w * c) + j * c + k < w * h * c.
Proof.
  intros Hi Hj Hk.
  assert (j * c + k < w * c) by nia.
  assert (i * (w * c) + w * c <= h * (w * c)) by nia.
  nia.
Qed.

Lemma planar_inj w h i j k i' j' k' :
  i < h -> j < w -> i' < h -> j' < w ->
  k * w * h + i * w + j = k' * w * h + i' * w + j' ->
  i = i' /\ j = j' /\ k = k'.
Proof.
  intros Hi Hj Hi' Hj' Heq.
  assert (i * w + j < w * h) by nia.
  assert (i' * w + j' < w * h) by nia.
  assert (k = k') as ->.
  { destruct (Nat.lt_trichotomy k k') as [Hlt | [Heq' | Hgt]]; [exfalso | done | exfalso].
    - assert (k * (w * h) + w * h <= k' * (w * h)) by nia. nia.
    - assert (k' * (w * h) + w * h <= k * (w * h)) by nia. nia. }
  assert (i * w + j = i' * w + j') by nia.
  assert (i = i') as ->.
  { destruct (Nat.lt_trichotomy i i') as [Hlt | [Heq' | Hgt]]; [exfalso | done | exfalso]; nia. }
  repeat split; lia.
Qed.

Lemma interleaved_inj w c i j k i' j' k' :
  j < w -> k < c -> j' < w -> k' < c ->
  i * (w * c) + j * c + k = i' * (w * c) + j' * c + k' ->
  i = i' /\ j = j' /\ k = k'.
Proof.
  intros Hj Hk Hj' Hk' Heq.
  assert (j * c + k < w * c) by nia.
  assert (j' * c + k' < w * c) by nia.
  assert (i = i') as ->.
  { destruct (Nat.lt_trichotomy i i') as [Hlt | [Heq' | Hgt]]; [exfalso | done | exfalso].
    - assert (i * (w * c) + w * c <= i' * (w * c)) by nia. nia.
    - assert (i' * (w * c) + w * c <= i * (w * c)) by nia. nia. }
  assert (j * c + k = j' * c + k') by nia.
  assert (j = j') as ->.
  { destruct (Nat.lt_trichotomy j j') as [Hlt | [Heq' | Hgt]]; [exfalso | done | exfalso]; nia. }
  repeat split; lia.
Qed.

(** Every position of an interleaved buffer is the position of one sample. *)
Lemma interleaved_surj w h c p :
  p < w * h * c ->
  exists i j k, i < h /\ j < w /\ k < c /\ p = i * (w * c) + j * c + k.
Proof.
  intros Hp.
  assert (0 < c) by nia. assert (0 < w) by nia.
  assert (Hwc : w * c <> 0) by nia.
  pose proof (Nat.div_mod_eq p (w * c)) as E1.
  pose proof (Nat.mod_upper_bound p (w * c) Hwc) as B1.
  set (r := Nat.modulo p (w * c)) in *.
  pose proof (Nat.div_mod_eq r c) as E2.
  pose proof (Nat.mod_upper_bound r c ltac:(lia)) as B2.
  exists (Nat.div p (w * c)), (Nat.div r c), (Nat.modulo r c).
  repeat split.
  - apply Nat.Div0.div_lt_upper_bound. nia.
  - apply Nat.Div0.div_lt_upper_bound. nia.
  - exact B2.
  - nia.
Qed.

End Layouts.

(** ** Image codec *)

(** Dividing in double precision and storing into a [Float32Array] is the
    single-precision division, for each of the 256 samples. *)
Lemma fround_div_255 (b : byte) :
  JS.fround (JS.div (JS.of_byte b) (JS.of_Z 255)) = quotient32 b.
Proof. destruct b; vm_compute; reflexivity. Qed.

Lemma roundtrip_sample_exact (b : byte) : roundtrip_sample b = b.
Proof. destruct b; vm_compute; reflexivity. Qed.

Section CodecProperties.
Local Open Scope nat_scope.

Lemma length_rgbToDarknet (buffer : list byte) (w h c : nat) :
  length (rgbToDarknet buffer w h c) = w * h * c.
Proof.
  unfold rgbToDarknet; cbv zeta.
  rewrite (length_for_nest h c w (fun i k j => k * w * h + i * w + j)
             (fun i k j => JS.fround (JS.div
                (JS.of_element (buffer !! (i * (w * c) + j * c + k))) (JS.of_Z 255)))).
  apply length_replicate.
Qed.

Lemma lookup_rgbToDarknet (buffer : list byte) (w h c i j k : nat) :
  i < h -> j < w -> k < c ->
  rgbToDarknet buffer w h c !! (k * w * h + i * w + j)
  = Some (JS.fround (JS.div (JS.of_element (buffer !! (i * (w * c) + j * c + k)))
                            (JS.of_Z 255))).
Proof.
  intros Hi Hj Hk. unfold rgbToDarknet; cbv zeta.
  apply (lookup_for_nest h c w (fun i k j => k * w * h + i * w + j)
           (fun i k j => JS.fround (JS.div
              (JS.of_element (buffer !! (i * (w * c) + j * c + k))) (JS.of_Z 255))));
    [done..| |].
  - rewrite length_replicate. by apply planar_lt.
  - intros i' k' j' Hi' Hk' Hj' Heq.
    destruct (planar_inj w h i' j' k' i j k) as (-> & -> & ->); done.
Qed.

(** C3: the planar conversion of a buffer of [w*h*c] bytes has [w*h*c]
    floats, and the float at [k*w*h + i*w + j] is the byte at
    [i*(c*w) + j*c + k] divided by 255 (the quotient as a [Float32Array]
    holds it, which is the single-precision quotient). *)
Theorem rgbToDarknet_planar (buffer : list byte) (w h c : nat) :
  length buffer = w * h * c ->
  length (rgbToDarknet buffer w h c) = w * h * c /\
  forall i j k, i < h -> j < w -> k < c ->
    exists b,
      buffer !! (i * (c * w) + j * c + k) = Some b /\
      rgbToDarknet buffer w h c !! (k * w * h + i * w + j)
      = Some (JS.fround (JS.div (JS.of_byte b) (JS.of_Z 255))) /\
      JS.fround (JS.div (JS.of_byte b) (JS.of_Z 255)) = quotient32 b.
Proof.
  intros Hlen. split; [apply length_rgbToDarknet|].
  intros i j k Hi Hj Hk.
  assert (Hin : i * (w * c) + j * c + k < length buffer).
  { rewrite Hlen. by apply interleaved_lt. }
  apply lookup_lt_is_Some in Hin as [b Hb].
  exists b. rewrite (Nat.mul_comm c w). split; [exact Hb|]. split.
  - rewrite lookup_rgbToDarknet by done. by rewrite Hb.
  - apply fround_div_255.
Qed.

Lemma length_imageToRGBBuffer allocUnsafe (image : IMAGE) :
  (forall n, length (allocUnsafe n) = n) ->
  length (imageToRGBBuffer allocUnsafe image)
  = image_w image * image_h image * image_c image.
Proof.
  intros Halloc. unfold imageToRGBBuffer; cbv zeta.
  set (imageData := image_data image <$> _).
  rewrite (length_for_nest (image_h image) (image_c image) (image_w image)
             (fun i k j => i * (image_c image * image_w image) + j * image_c image + k)
             (fun i k j => JS.ToUint8 (JS.mul (JS.of_float32_element
                (imageData !! (k * image_w image * image_h image + i * image_w image + j)))
                (JS.of_Z 255)))).
  rewrite Halloc. unfold imageData. by rewrite length_fmap, length_seq.
Qed.

Lemma lookup_imageToRGBBuffer allocUnsafe (image : IMAGE) (i j k : nat) :
  (forall n, length (allocUnsafe n) = n) ->
  i < image_h image -> j < image_w image -> k < image_c image ->
  imageToRGBBuffer allocUnsafe image !! (i * (image_w image * image_c image) + j * image_c image + k)
  = Some (JS.ToUint8 (JS.mul
      (JS.of_float32 (image_data image (k * image_w image * image_h image + i * image_w image + j)))
      (JS.of_Z 255))).
Proof.
  intros Halloc Hi Hj Hk. unfold imageToRGBBuffer; cbv zeta.
  destruct image as [w h c data]; simpl in *.
  set (imageData := data <$> _).
  rewrite (Nat.mul_comm w c).
  assert (Hget : imageData !! (k * w * h + i * w + j) = Some (data (k * w * h + i * w + j))).
  { unfold imageData. rewrite list_lookup_fmap, lookup_seq_lt by (by apply planar_lt).
    reflexivity. }
  etrans;
    [apply (lookup_for_nest h c w (fun i k j => i * (c * w) + j * c + k)
           (fun i k j => JS.ToUint8 (JS.mul (JS.of_float32_element
              (imageData !! (k * w * h + i * w + j))) (JS.of_Z 255))));
     [done..| |]
    | cbv beta; rewrite Hget; reflexivity ].
  - rewrite Halloc. unfold imageData. rewrite length_fmap, length_seq.
    rewrite (Nat.mul_comm c w). by apply interleaved_lt.
  - intros i' k' j' Hi' Hk' Hj' Heq. rewrite !(Nat.mul_comm c w) in Heq.
    destruct (interleaved_inj w c i' j' k' i j k) as (-> & -> & ->); done.
Qed.

(** The round trip gives every sample back as it was. *)
Lemma codec_roundtrip_exact allocUnsafe (B : list byte) (w h c : nat) :
  (forall n, length (allocUnsafe n) = n) ->
  length B = w * h * c ->
  imageToRGBBuffer allocUnsafe
    {| image_w := w; image_h := h; image_c := c;
       image_data := float_memory (rgbToDarknet B w h c) |} = B.
Proof.
  intros Halloc Hlen. apply list_eq_same_length with (w * h * c); [done| |].
  { by rewrite length_imageToRGBBuffer. }
  intros p x y Hp Hx Hy.
  destruct (interleaved_surj w h c p Hp) as (i & j & k & Hi & Hj & Hk & ->).
  pose proof (lookup_imageToRGBBuffer allocUnsafe
                {| image_w := w; image_h := h; image_c := c;
                   image_data := float_memory (rgbToDarknet B w h c) |} i j k
                Halloc Hi Hj Hk) as Hout.
  simpl in Hout. rewrite Hout in Hx. unfold float_memory in Hx.
  rewrite nth_lookup, lookup_rgbToDarknet, Hy in Hx by done. simpl in Hx.
  injection Hx as <-. apply roundtrip_sample_exact.
Qed.

(** C2: converting a buffer of [w*h*c] bytes to the planar float form and
    back gives a buffer of the same length that differs from it by at most
    1 at every position, and not at all where the sample scales exactly. *)
Theorem codec_roundtrip allocUnsafe (B : list byte) (w h c : nat) :
  (forall n, length (allocUnsafe n) = n) ->
  length B = w * h * c ->
  let out := imageToRGBBuffer allocUnsafe
               {| image_w := w; image_h := h; image_c := c;
                  image_data := float_memory (rgbToDarknet B w h c) |} in
  length out = length B /\
  forall p b, B !! p = Some b ->
    exists b', out !! p = Some b' /\
      (sample_distance b' b <= 1)%Z /\
      (scales_exactly b = true -> b' = b).
Proof.
  intros Halloc Hlen out. unfold out.
  rewrite codec_roundtrip_exact by done. split; [done|].
  intros p b Hb. exists b. split; [done|]. split; [|done].
  unfold sample_distance. lia.
Qed.

End CodecProperties.

(** ** Decoder *)

Lemma foldl_push {A B : Type} (f : B -> list A) (l : list B) (acc : list A) :
  foldl (fun acc x => acc ++ f x) acc l = acc ++ (l ≫= f).
Proof.
  revert acc; induction l as [|x l IH]; intros acc.
  - simpl. by rewrite app_nil_r.
  - rewrite bind_cons. simpl. rewrite IH. by rewrite app_assoc.
Qed.

Lemma bind_filter_fmap {A B : Type} (p : A -> bool) (f : A -> B) (l : list A) :
  l ≫= (fun x => if p x then [f x] else []) = f <$> List.filter p l.
Proof.
  induction l as [|x l IH]; [reflexivity|].
  rewrite bind_cons, IH. simpl. by destruct (p x).
Qed.

Lemma filter_none {A : Type} (p : A -> bool) (l : list A) :
  (forall x, x ∈ l -> p x = false) -> List.filter p l = [].
Proof.
  induction l as [|x l IH]; intros Hp; [reflexivity|].
  simpl. rewrite Hp by apply list_elem_of_here.
  apply IH. intros y Hy. apply Hp. by apply list_elem_of_further.
Qed.

Lemma getArrayFromBuffer_fmap (buffer : float_pointer) (n : nat) :
  getArrayFromBuffer buffer n = (fun i => JS.of_float32 (buffer i)) <$> seq 0 n.
Proof.
  unfold getArrayFromBuffer, for_.
  rewrite (foldl_push (fun i => [JS.of_float32 (buffer i)])). simpl.
  induction (seq 0 n) as [|x l IH]; [reflexivity|].
  rewrite bind_cons, IH. reflexivity.
Qed.

Lemma lookup_getArrayFromBuffer (buffer : float_pointer) (n j : nat) :
  (j < n)%nat -> getArrayFromBuffer buffer n !! j = Some (JS.of_float32 (buffer j)).
Proof.
  intros Hj. rewrite getArrayFromBuffer_fmap, list_lookup_fmap, lookup_seq_lt by done.
  reflexivity.
Qed.

Lemma bbox_eta (b : BBOX) :
  {| bbox_x := bbox_x b; bbox_y := bbox_y b; bbox_w := bbox_w b; bbox_h := bbox_h b |} = b.
Proof. by destruct b. Qed.

(** The inner loop of the decoder pushes the entries of one record. *)
Lemma decode_record (o : DarknetBase) (det : DETECTION) (detections : list Detection) :
  for_ (meta_classes (meta o)) (fun j detections =>
    match getArrayFromBuffer (det_prob det) (meta_classes (meta o)) !! j with
    | Some p =>
        if JS.gt p JS.zero then
          let b := det_bbox det in
          detections ++ [{| name := names o !! j;
                            prob := p;
                            box := {| bbox_x := bbox_x b; bbox_y := bbox_y b;
                                      bbox_w := bbox_w b; bbox_h := bbox_h b |} |}]
        else detections
    | None => detections
    end) detections
  = detections ++ record_entries o det.
Proof.
  unfold for_, record_entries, positive_classes.
  rewrite <- bind_filter_fmap, <- foldl_push.
  apply foldl_ext_in. intros acc j Hj. apply elem_of_seq in Hj.
  rewrite lookup_getArrayFromBuffer by lia.
  fold (class_prob det j). cbv zeta. rewrite bbox_eta.
  destruct (JS.gt (class_prob det j) JS.zero); [reflexivity|].
  by rewrite app_nil_r.
Qed.

Lemma bufferToDetections_bind (o : DarknetBase) (buffer : nat -> DETECTION) (length : Z) :
  bufferToDetections o buffer length
  = seq 0 (Z.to_nat length) ≫= (fun i => record_entries o (buffer i)).
Proof.
  unfold bufferToDetections. cbv zeta.
  transitivity (for_ (Z.to_nat length)
                  (fun i detections => detections ++ record_entries o (buffer i)) []).
  - unfold for_ at 1 3. apply foldl_ext_in. intros acc i _. apply decode_record.
  - unfold for_. by rewrite foldl_push.
Qed.

Lemma not_gt_of_le (p : JS.number) :
  SFleb p JS.zero = true -> JS.gt p JS.zero = false.
Proof. by destruct p as [[]|[]| |[] m e]. Qed.

(** C7: the decoder emits, record after record, one entry per class index
    [j < classes] whose probability is greater than 0, named by the class
    list at [j] and carrying the record's box; a record whose probabilities
    are all [<= 0] gives no entry, and one with exactly two classes above 0
    gives two entries with the same box. *)
Theorem bufferToDetections_entries (o : DarknetBase) (buffer : nat -> DETECTION) (length : Z) :
  bufferToDetections o buffer length
  = seq 0 (Z.to_nat length) ≫= (fun i => record_entries o (buffer i)) /\
  (forall det,
     NoDup (positive_classes o det) /\
     (forall j, j ∈ positive_classes o det <->
                (j < meta_classes (meta o))%nat /\ JS.gt (class_prob det j) JS.zero = true) /\
     record_entries o det
     = (fun j => {| name := names o !! j; prob := class_prob det j; box := det_bbox det |})
         <$> positive_classes o det) /\
  (forall det,
     (forall j, (j < meta_classes (meta o))%nat -> SFleb (class_prob det j) JS.zero = true) ->
     record_entries o det = []) /\
  (forall det j1 j2,
     positive_classes o det = [j1; j2] ->
     exists e1 e2,
       record_entries o det = [e1; e2] /\
       name e1 = names o !! j1 /\ name e2 = names o !! j2 /\
       box e1 = det_bbox det /\ box e2 = det_bbox det).
Proof.
  split; [apply bufferToDetections_bind|]. split; [|split].
  - intros det. split; [|split].
    + unfold positive_classes. apply NoDup_ListNoDup, List.NoDup_filter, NoDup_ListNoDup, NoDup_seq.
    + intros j. unfold positive_classes.
      rewrite list_elem_of_In, List.filter_In, <- list_elem_of_In, elem_of_seq.
      split; intros [? ?]; split; try done; lia.
    + reflexivity.
  - intros det Hle. unfold record_entries, positive_classes.
    rewrite filter_none; [reflexivity|].
    intros j Hj. apply elem_of_seq in Hj. apply not_gt_of_le, Hle. lia.
  - intros det j1 j2 Hpos. exists (entry o det j1), (entry o det j2).
    unfold record_entries. rewrite Hpos. done.
Qed.

(** ** Running the monad *)

Section Running.
Context `{Library}.

Lemma makeMemory_run (w : World) :
  makeMemory w
  = (Ok tt,
     {| this := set_memorySlotsUsed (JS.Int 0)
                  (set_memory (returns (length (trace w))
                                 (network_memory_make (memoryCount (this w)) (netSize (this w))))
                     (set_memoryIndex (JS.Int 0) (this w)));
        trace := trace w ++ [{| ev_call := network_memory_make (memoryCount (this w))
                                             (netSize (this w));
                                ev_ok := true |}] |}).
Proof. reflexivity. Qed.

Lemma rememberNet_run (w : World) :
  rememberNet w
  = let c := network_remember_memory (net (this w)) (memory (this w)) (memoryIndex (this w)) in
    match rejects (length (trace w)) c with
    | Some e => (Throw e, log c false w)
    | None => (Ok tt, {| this := remembered (this w);
                         trace := trace w ++ [{| ev_call := c; ev_ok := true |}] |})
    end.
Proof.
  unfold rememberNet, mbind, M_bind, get, call_async; simpl.
  destruct (rejects _ _); reflexivity.
Qed.

Lemma resetMemory_run (arg : option JS.int) (w : World) :
  resetMemory arg w
  = makeMemory
      {| this := set_memoryCount (default (memoryCount (this w)) arg) (this w);
         trace := trace w ++ [{| ev_call := network_memory_free (memory (this w))
                                              (memoryCount (this w));
                                 ev_ok := true |}] |}.
Proof. reflexivity. Qed.

Lemma remember_times_S (k : nat) (w : World) :
  remember_times (S k) w
  = match remember_times k w with
    | (Ok _, w') => rememberNet w'
    | (Throw e, w') => (Throw e, w')
    end.
Proof. reflexivity. Qed.

End Running.

(** ** Memory ring *)

Section Ring.
Context `{Library}.

Lemma remembered_count (o : DarknetBase) : memoryCount (remembered o) = memoryCount o.
Proof. reflexivity. Qed.

Lemma rememberNet_Ok (w : World) :
  fst (rememberNet w) = Ok tt -> this (snd (rememberNet w)) = remembered (this w).
Proof.
  rewrite rememberNet_run. cbv zeta. destruct (rejects _ _); simpl; [discriminate|done].
Qed.

Lemma rememberNet_this (w : World) :
  this (snd (rememberNet w)) = this w \/ this (snd (rememberNet w)) = remembered (this w).
Proof.
  rewrite rememberNet_run. cbv zeta. destruct (rejects _ _); simpl; auto.
Qed.

Lemma remember_times_count (k : nat) (w : World) :
  memoryCount (this (snd (remember_times k w))) = memoryCount (this w).
Proof.
  induction k as [|k IH]; [reflexivity|].
  rewrite remember_times_S. destruct (remember_times k w) as [[[]|e] w']; simpl in *; [|done].
  destruct (rememberNet_this w') as [-> | ->]; done.
Qed.

(** C4: from a freshly made memory of capacity [N >= 1], each successful
    [rememberNet] moves the write index to [(index + 1) mod N] and the
    populated count to [min (populated + 1) N]; after [k] successful calls
    the index is [k mod N] and the count [min k N], hence [N] from the
    [N]-th call on. *)
Theorem rememberNet_cycles (w0 : World) (N : Z) (k : nat) :
  1 <= N ->
  memoryCount (this w0) = JS.Int N ->
  let fresh := snd (makeMemory w0) in
  let before := this (snd (remember_times k fresh)) in
  let after := this (snd (remember_times (S k) fresh)) in
  memoryIndex (this fresh) = JS.Int 0 /\
  memorySlotsUsed (this fresh) = JS.Int 0 /\
  (fst (remember_times k fresh) = Ok tt ->
   memoryIndex before = JS.Int (Z.of_nat k mod N) /\
   memorySlotsUsed before = JS.Int (Z.min (Z.of_nat k) N) /\
   (N <= Z.of_nat k -> memorySlotsUsed before = JS.Int N)) /\
  (fst (remember_times (S k) fresh) = Ok tt ->
   exists i u,
     memoryIndex before = JS.Int i /\ memorySlotsUsed before = JS.Int u /\
     memoryIndex after = JS.Int ((i + 1) mod N) /\
     memorySlotsUsed after = JS.Int (Z.min (u + 1) N)).
Proof.
  intros HN Hcount fresh before after.
  assert (Hfresh : memoryCount (this fresh) = JS.Int N) by exact Hcount.
  assert (Hk : forall k, fst (remember_times k fresh) = Ok tt ->
             memoryIndex (this (snd (remember_times k fresh))) = JS.Int (Z.of_nat k mod N) /\
             memorySlotsUsed (this (snd (remember_times k fresh)))
             = JS.Int (Z.min (Z.of_nat k) N)).
  { clear k before after. induction k as [|k IH]; intros Hok.
    - simpl. rewrite Z.mod_0_l by lia. split; [done|]. f_equal. lia.
    - rewrite remember_times_S in Hok |- *.
      pose proof (remember_times_count k fresh) as Hc. rewrite Hfresh in Hc.
      destruct (remember_times k fresh) as [[[]|e] w'] eqn:E; simpl in *; [|discriminate].
      destruct (IH eq_refl) as [Hi Hu].
      rewrite (rememberNet_Ok w' Hok). unfold remembered; simpl.
      rewrite Hi, Hu, Hc. simpl.
      destruct (N =? 0) eqn:E0; [lia|].
      rewrite Z.rem_mod_nonneg by (pose proof (Z.mod_pos_bound (Z.of_nat k) N); lia).
      split; f_equal.
      + rewrite Zplus_mod_idemp_l. f_equal. lia.
      + lia. }
  split; [done|]. split; [done|]. split.
  - intros Hok. destruct (Hk k Hok) as [Hi Hu]. unfold before.
    split; [done|]. split; [done|]. intros Hle. rewrite Hu. f_equal. lia.
  - intros Hok.
    assert (Hok' : fst (remember_times k fresh) = Ok tt).
    { rewrite remember_times_S in Hok.
      destruct (remember_times k fresh) as [[[]|e] w']; simpl in *; done. }
    destruct (Hk k Hok') as [Hi Hu]. destruct (Hk (S k) Hok) as [Hi' Hu'].
    exists (Z.of_nat k mod N), (Z.min (Z.of_nat k) N).
    unfold before, after. split; [done|]. split; [done|]. split.
    + rewrite Hi'. f_equal. rewrite Zplus_mod_idemp_l. f_equal. lia.
    + rewrite Hu'. f_equal. lia.
Qed.

End Ring.

(** ** The paths of one detection *)

Section Paths.
Context `{Library}.

Lemma _detectAsync_paths (net_ : pointer) (meta_ : METADATA) (image : IMAGE)
    (th hr nm : JS.number) (w : World) :
  let o := this w in
  let c1 := network_predict_image net_ image in
  let w1 := log c1 true w in
  let c2 := network_remember_memory (net o) (memory o) (memoryIndex o) in
  let w2 := {| this := remembered o; trace := trace (log c2 true w1) |} in
  let c3 := network_avg_predictions (net o) (netSize o) (memory o)
              (memorySlotsUsed (remembered o)) (image_w image) (image_h image) th hr in
  let dn := returns (length (trace w2)) c3 in
  let w3 := log c3 true w2 in
  let c4 := do_nms_obj (fst dn) (snd dn) (meta_classes meta_) nm in
  let w4 := log c4 true w3 in
  let c5 := free_detections (fst dn) (snd dn) in
  let r := _detectAsync net_ meta_ image th hr nm w in
  (exists e, r = (Throw e, log c1 false w)) \/
  (exists e, r = (Throw e, log c2 false w1)) \/
  (exists e, r = (Throw e, log c3 false w2)) \/
  (exists e, r = (Throw e, log c4 false w3)) \/
  r = (Ok (bufferToDetections (this w4) (ref_get (length (trace w4)) (fst dn)) (snd dn)),
       log c5 true w4).
Proof.
  cbv zeta.
  unfold _detectAsync, avgPrediction, rememberNet.
  unfold mbind, M_bind, mret, M_ret, get, clock, modify, call_async, call_sync.
  simpl.
  destruct (rejects _ _) as [e|]; [left; by exists e|].
  right. simpl.
  destruct (rejects _ _) as [e|]; [left; by exists e|].
  right. simpl.
  destruct (rejects _ _) as [e|]; [left; by exists e|].
  right. simpl.
  destruct (returns _ _) as [dets num]. simpl.
  destruct (rejects _ _) as [e|]; [left; by exists e|].
  right. reflexivity.
Qed.

Lemma detectAsync_path_run (path : string) (config : option IConfig) (w : World) :
  let c0 := load_image_color path 0 0 in
  let img := returns (length (trace w)) c0 in
  let d := _detectAsync (net (this w)) (meta (this w)) img
             (thresholds config).1.1 (thresholds config).1.2 (thresholds config).2
             (log c0 true w) in
  detectAsync (inl path) config w
  = match rejects (length (trace w)) c0 with
    | Some e => (Throw e, log c0 false w)
    | None =>
        match d with
        | (Ok ds, w') =>
            match rejects (length (trace w')) (free_image img) with
            | Some e => (Throw e, log (free_image img) false w')
            | None => (Ok ds, log (free_image img) true w')
            end
        | (Throw e, w') => (Throw e, w')
        end
    end.
Proof.
  cbv zeta. unfold detectAsync, getImageFromPathAsync.
  destruct (thresholds config) as [[th hr] nm]. simpl.
  unfold mbind, M_bind, mret, M_ret, get, call_async. simpl.
  destruct (rejects _ _) as [e|]; [reflexivity|]. simpl.
  destruct (_detectAsync _ _ _ _ _ _ _) as [[ds|e] w']; [|reflexivity].
  destruct (rejects _ _) as [e|]; reflexivity.
Qed.

Lemma detectAsync_buffer_run (image : IBufferImage) (config : option IConfig) (w0 : World) :
  let c0 := float_to_image (buf_w image) (buf_h image) (buf_c image)
              (rgbToDarknet (buf_b image) (buf_w image) (buf_h image) (buf_c image)) in
  let img := returns (length (trace w0)) c0 in
  detectAsync (inr image) config w0
  = match rejects (length (trace w0)) c0 with
    | Some e => (Throw e, log c0 false w0)
    | None =>
        _detectAsync (net (this w0)) (meta (this w0)) img
          (thresholds config).1.1 (thresholds config).1.2 (thresholds config).2
          (log c0 true w0)
    end.
Proof.
  cbv zeta. unfold detectAsync, RGBBufferToImageAsync.
  destruct (thresholds config) as [[th hr] nm]. simpl.
  unfold mbind, M_bind, mret, M_ret, get, call_async. simpl.
  destruct (rejects _ _) as [e|]; [reflexivity|]. simpl.
  destruct (_detectAsync _ _ _ _ _ _ _) as [[ds|e] w']; reflexivity.
Qed.

Lemma detectFromImageAsync_run (image : IMAGE) (config : option IConfig) (w : World) :
  detectFromImageAsync image config w
  = _detectAsync (net (this w)) (meta (this w)) image
      (thresholds config).1.1 (thresholds config).1.2 (thresholds config).2 w.
Proof.
  unfold detectFromImageAsync. destruct (thresholds config) as [[th hr] nm]. reflexivity.
Qed.

Lemma added_app (w w' : World) (l : list event) :
  trace w' = trace w ++ l -> added w w' = l.
Proof. intros E. unfold added. rewrite E. apply drop_app_length. Qed.

End Paths.

Section Outcomes.
Context `{Library}.

(** The five ways [_detectAsync] can end, with the events it added and the
    object it left. *)
Lemma _detectAsync_outcome (net_ : pointer) (meta_ : METADATA) (image : IMAGE)
    (th hr nm : JS.number) (w : World) :
  let o := this w in
  let t := length (trace w) in
  let c1 := network_predict_image net_ image in
  let c2 := network_remember_memory (net o) (memory o) (memoryIndex o) in
  let c3 := network_avg_predictions (net o) (netSize o) (memory o)
              (memorySlotsUsed (remembered o)) (image_w image) (image_h image) th hr in
  let dn := returns (t + 2)%nat c3 in
  let c4 := do_nms_obj (fst dn) (snd dn) (meta_classes meta_) nm in
  let c5 := free_detections (fst dn) (snd dn) in
  let r := _detectAsync net_ meta_ image th hr nm w in
  exists l, trace (snd r) = trace w ++ l /\
    ((exists e, fst r = Throw e /\ this (snd r) = o /\ l = [ev c1 false]) \/
     (exists e, fst r = Throw e /\ this (snd r) = o /\ l = [ev c1 true; ev c2 false]) \/
     (exists e, fst r = Throw e /\ this (snd r) = remembered o /\
                l = [ev c1 true; ev c2 true; ev c3 false]) \/
     (exists e, fst r = Throw e /\ this (snd r) = remembered o /\
                l = [ev c1 true; ev c2 true; ev c3 true; ev c4 false]) \/
     (fst r = Ok (bufferToDetections (remembered o) (ref_get (t + 4)%nat (fst dn)) (snd dn)) /\
      this (snd r) = remembered o /\
      l = [ev c1 true; ev c2 true; ev c3 true; ev c4 true; ev c5 true])).
Proof.
  cbv zeta.
  destruct (_detectAsync_paths net_ meta_ image th hr nm w)
    as [(e & E) | [(e & E) | [(e & E) | [(e & E) | E]]]];
    rewrite E; unfold log, ev; simpl; rewrite <- ?app_assoc; simpl;
    rewrite ?length_app; simpl;
    (eexists; split; [reflexivity|]).
  - left. by exists e.
  - right; left. by exists e.
  - right; right; left. by exists e.
  - right; right; right; left. by exists e.
  - right; right; right; right. done.
Qed.

End Outcomes.

(** ** Releasing what was allocated *)

Section Frees.
Context `{Library}.

Ltac outcome_cases Hd :=
  destruct Hd as (l & Htr & [(e' & Hr & Ho & ->) | [(e' & Hr & Ho & ->) |
                  [(e' & Hr & Ho & ->) | [(e' & Hr & Ho & ->) | (Hr & Ho & ->)]]]]).

Ltac fail_leaf :=
  split; [unfold count; simpl; lia|];
  split; [unfold count; simpl; lia|];
  split; [intros; try done; reflexivity|];
  split; [intros ? Hds; discriminate Hds|];
  intros ? _; first [left; split; reflexivity | right; eexists; reflexivity].

Ltac settle_trace Htr :=
  unfold log in *; simpl in *; rewrite ?Htr; rewrite <- ?app_assoc; simpl.

(** C1, as the code has it: when every native step of [detectAsync]
    succeeds, [free_detections] is called exactly once, on the array the
    averaging returned, and [free_image] exactly once, on the image loaded
    from the path (never on an image made from a buffer); on every exit
    path each is called at most once, and only on what was allocated; when
    the call fails, either no free was called at all or the step that
    failed is [free_image] itself. *)
Theorem detectAsync_frees (image : string + IBufferImage) (config : option IConfig)
    (w : World) :
  let r := detectAsync image config w in
  let tr := added w (snd r) in
  (count is_free_detections tr <= count is_detections_alloc tr <= 1)%nat /\
  (count is_free_image tr <= count is_image_alloc tr <= 1)%nat /\
  (forall p, image = inr p -> count is_free_image tr = 0%nat) /\
  (forall ds, fst r = Ok ds ->
     (exists t c dn,
        trace (snd r) !! t = Some (ev c true) /\ (length (trace w) <= t)%nat /\
        allocated_detections t c = Some dn /\
        List.filter is_free_detections tr = [ev (free_detections dn.1 dn.2) true]) /\
     (forall path, image = inl path ->
        exists img,
          trace (snd r) !! length (trace w) = Some (ev (load_image_color path 0 0) true) /\
          allocated_image (length (trace w)) (load_image_color path 0 0) = Some img /\
          List.filter is_free_image tr = [ev (free_image img) true])) /\
  (forall e, fst r = Throw e ->
     (count is_free_detections tr = 0 /\ count is_free_image tr = 0)%nat \/
     exists img, last tr = Some (ev (free_image img) false)).
Proof.
  cbv zeta. destruct image as [path | buf].
  - rewrite detectAsync_path_run. cbv zeta.
    generalize (thresholds config). intros [[th hr] nm]. cbn [fst snd].
    destruct (rejects _ _) as [e|].
    { erewrite added_app by (unfold log; simpl; reflexivity). fail_leaf. }
    match goal with |- context [_detectAsync ?a ?b ?c ?d ?e ?f ?g] =>
      pose proof (_detectAsync_outcome a b c d e f g) as Hd end.
    cbv zeta in Hd. unfold log in Hd; cbn [trace this] in Hd.
    rewrite ?length_app, <- ?Nat.add_assoc in Hd; cbn [length Nat.add] in Hd.
    destruct (_detectAsync _ _ _ _ _ _ _) as [[ds|e] w'] eqn:Ed; simpl in Hd.
    + outcome_cases Hd; try discriminate.
      destruct (rejects _ _) as [e|]; simpl;
        (erewrite added_app by (settle_trace Htr; reflexivity)); [fail_leaf|].
      split; [unfold count; simpl; lia|]. split; [unfold count; simpl; lia|].
      split; [intros p [=]|]. split; [|intros e' [=]]. intros ds' _. split.
      * eexists (length (trace w) + 3)%nat, _, _. split; [|split; [lia|split]].
        -- settle_trace Htr. rewrite lookup_app_r by lia.
           replace (length (trace w) + 3 - length (trace w))%nat with 3%nat by lia.
           reflexivity.
        -- reflexivity.
        -- reflexivity.
      * intros path' [= <-]. eexists. split; [|split; reflexivity].
        settle_trace Htr. rewrite lookup_app_r by lia.
        by rewrite Nat.sub_diag.
    + outcome_cases Hd; try discriminate;
        (erewrite added_app by (settle_trace Htr; reflexivity)); fail_leaf.
  - rewrite detectAsync_buffer_run. cbv zeta.
    generalize (thresholds config). intros [[th hr] nm]. cbn [fst snd].
    destruct (rejects _ _) as [e|].
    { erewrite added_app by (unfold log; simpl; reflexivity). fail_leaf. }
    match goal with |- context [_detectAsync ?a ?b ?c ?d ?e ?f ?g] =>
      pose proof (_detectAsync_outcome a b c d e f g) as Hd end.
    cbv zeta in Hd. unfold log in Hd; cbn [trace this] in Hd.
    rewrite ?length_app, <- ?Nat.add_assoc in Hd; cbn [length Nat.add] in Hd.
    destruct (_detectAsync _ _ _ _ _ _ _) as [[ds|e] w'] eqn:Ed; simpl in Hd;
      outcome_cases Hd; try discriminate;
        (erewrite added_app by (settle_trace Htr; reflexivity)); try fail_leaf.
    split; [unfold count; simpl; lia|]. split; [unfold count; simpl; lia|].
    split; [reflexivity|]. split; [|intros e' [=]].
    intros ds' _. split; [|intros path' [=]].
    eexists (length (trace w) + 3)%nat, _, _. split; [|split; [lia|split]].
    + settle_trace Htr. rewrite lookup_app_r by lia.
      replace (length (trace w) + 3 - length (trace w))%nat with 3%nat by lia.
      reflexivity.
    + reflexivity.
    + reflexivity.
Qed.

End Frees.

(** ** Thresholds *)

Section Thresholds.
Context `{Library}.

Lemma _detectAsync_hands (net_ : pointer) (meta_ : METADATA) (image : IMAGE)
    (th hr nm : JS.number) (w w0 : World) (pre : list event) :
  let Q := handed (memorySlotsUsed (remembered (this w))) th hr nm in
  trace w = trace w0 ++ pre ->
  Forall Q pre ->
  Forall Q (added w0 (snd (_detectAsync net_ meta_ image th hr nm w))).
Proof.
  intros Q Hpre Hall.
  destruct (_detectAsync_outcome net_ meta_ image th hr nm w) as (l & Htr & Hcases).
  rewrite (added_app w0 _ (pre ++ l)) by (rewrite Htr, Hpre; by rewrite app_assoc).
  apply Forall_app. split; [exact Hall|].
  destruct Hcases as [(e & _ & _ & ->) | [(e & _ & _ & ->) | [(e & _ & _ & ->) |
                      [(e & _ & _ & ->) | (_ & _ & ->)]]]];
    repeat constructor.
Qed.

(** Every averaging and suppression call of a detection is handed the
    populated count that the call's own [rememberNet] left and the
    thresholds computed from the caller's [config]. *)
Lemma detect_hands (config : option IConfig) (w : World) :
  let '(th, hr, nm) := thresholds config in
  let Q := handed (memorySlotsUsed (remembered (this w))) th hr nm in
  (forall image, Forall Q (added w (snd (detectAsync image config w)))) /\
  (forall image, Forall Q (added w (snd (detectFromImageAsync image config w)))).
Proof.
  destruct (thresholds config) as [[th hr] nm] eqn:Eth. cbv zeta. split.
  - intros [path | buf].
    + rewrite detectAsync_path_run. cbv zeta. rewrite Eth. cbn [fst snd].
      destruct (rejects _ _) as [e|].
      { erewrite added_app by (unfold log; simpl; reflexivity). repeat constructor. }
      match goal with |- context [_detectAsync ?a1 ?a2 ?a3 ?a4 ?a5 ?a6 ?a7] =>
        pose proof (_detectAsync_hands a1 a2 a3 a4 a5 a6 a7 w
                      [ev (load_image_color path 0 0) true] eq_refl) as Hd;
        destruct (_detectAsync a1 a2 a3 a4 a5 a6 a7) as [[ds|e] w'] eqn:Ed end;
        simpl in Hd.
      * assert (Hw' : trace w' = trace w ++ added w w').
        { unfold added.
          pose proof (_detectAsync_outcome (net (this w)) (meta (this w))
                        (returns (length (trace w)) (load_image_color path 0 0)) th hr nm
                        (log (load_image_color path 0 0) true w)) as (l & Htr & _).
          rewrite Ed in Htr. simpl in Htr. rewrite Htr, <- app_assoc.
          by rewrite drop_app_length. }
        destruct (rejects _ _) as [e|]; simpl;
          (erewrite added_app by (unfold log; simpl; rewrite Hw', <- app_assoc; reflexivity));
          (apply Forall_app; split; [apply Hd; repeat constructor | repeat constructor]).
      * apply Hd. repeat constructor.
    + rewrite detectAsync_buffer_run. cbv zeta. rewrite Eth. cbn [fst snd].
      destruct (rejects _ _) as [e|].
      { erewrite added_app by (unfold log; simpl; reflexivity). repeat constructor. }
      eapply (_detectAsync_hands _ _ _ _ _ _ (log _ true w)); [reflexivity|].
      repeat constructor.
  - intros image. rewrite detectFromImageAsync_run, Eth. cbn [fst snd].
    eapply _detectAsync_hands with (pre := []); [by rewrite app_nil_r | constructor].
Qed.

Lemma detect_passes_thresholds (config : option IConfig) (w : World) :
  let '(th, hr, nm) := thresholds config in
  (forall image,
     Forall (passes_thresholds th hr nm) (added w (snd (detectAsync image config w)))) /\
  (forall image,
     Forall (passes_thresholds th hr nm)
       (added w (snd (detectFromImageAsync image config w)))).
Proof.
  pose proof (detect_hands config w) as Hh.
  destruct (thresholds config) as [[th hr] nm]. cbv zeta in Hh. destruct Hh as [H1 H2].
  split; intros image; [specialize (H1 image) | specialize (H2 image)];
    (eapply Forall_impl; [eassumption|]); by intros e [_ ?].
Qed.



End Thresholds.

(** ** Construction *)

Section ConstructionProperties.
Context `{Library}.

Lemma new_run (cfg : IDarknetConfig) :
  ~ turned_down (Some cfg) ->
  new (Some cfg)
  = match settled_names cfg with
    | inl e => (Throw e, {| this := blank; trace := [] |})
    | inr names_ => (Ok tt, constructed cfg names_)
    end.
Proof.
  intros Hok. unfold turned_down in Hok.
  unfold new, constructor, settled_names.
  destruct (config_names cfg) as [l|] eqn:En; simpl.
  - destruct (JS.truthy_string (config cfg)) eqn:Ec; [|tauto].
    destruct (JS.truthy_string (weights cfg)) eqn:Ew; [|tauto].
    reflexivity.
  - destruct (JS.truthy_string (namefile cfg)) eqn:Ef; [|tauto]. simpl.
    unfold mbind at 1, M_bind at 1.
    destruct (readFileSync _) as [content|e]; [|reflexivity]. simpl.
    destruct (JS.truthy_string (config cfg)) eqn:Ec; [|tauto].
    destruct (JS.truthy_string (weights cfg)) eqn:Ew; [|tauto].
    reflexivity.
Qed.

Lemma new_turned_down (config_ : option IDarknetConfig) :
  turned_down config_ ->
  exists e, new config_ = (Throw e, {| this := blank; trace := [] |}).
Proof.
  destruct config_ as [cfg|]; [|by eexists].
  unfold new, constructor. simpl.
  destruct (config_names cfg) as [l|] eqn:En; simpl.
  - intros [[? _] | [Hc | Hw]]; [done| |].
    + rewrite Hc. by eexists.
    + rewrite Hw. destruct (JS.truthy_string (config cfg)); by eexists.
  - destruct (JS.truthy_string (namefile cfg)) eqn:Ef; simpl; [|by eexists].
    intros [[_ ?] | [Hc | Hw]]; [done| |];
      unfold mbind at 1, M_bind at 1;
      (destruct (readFileSync _) as [content|e]; [|by eexists]); simpl.
    + rewrite Hc. by eexists.
    + rewrite Hw. destruct (JS.truthy_string (config cfg)); by eexists.
Qed.

Lemma turned_down_dec (config_ : option IDarknetConfig) :
  turned_down config_ \/ ~ turned_down config_.
Proof.
  destruct config_ as [cfg|]; [|by left]. unfold turned_down.
  destruct (config_names cfg), (JS.truthy_string (namefile cfg)),
    (JS.truthy_string (config cfg)), (JS.truthy_string (weights cfg));
    try (left; tauto); right; intros [[? ?] | [? | ?]]; congruence.
Qed.

Lemma new_Ok (config_ : option IDarknetConfig) (w : World) :
  new config_ = (Ok tt, w) ->
  exists cfg names_, config_ = Some cfg /\ w = constructed cfg names_.
Proof.
  intros Hnew. destruct (turned_down_dec config_) as [Hbad | Hgood].
  - destruct (new_turned_down config_ Hbad) as [e He]. congruence.
  - destruct config_ as [cfg|]; [|by destruct Hgood].
    rewrite (new_run cfg Hgood) in Hnew.
    destruct (settled_names cfg) as [e|names_]; [discriminate|].
    exists cfg, names_. split; [done|]. congruence.
Qed.


End ConstructionProperties.

(** ** The ring invariant *)

Section RingInvariant.
Context `{Library}.

Lemma _detectAsync_this (net_ : pointer) (meta_ : METADATA) (image : IMAGE)
    (th hr nm : JS.number) (w : World) :
  let w' := snd (_detectAsync net_ meta_ image th hr nm w) in
  this w' = this w \/ this w' = remembered (this w).
Proof.
  destruct (_detectAsync_outcome net_ meta_ image th hr nm w) as (l & _ & Hcases).
  cbv zeta.
  destruct Hcases as [(e & _ & -> & _) | [(e & _ & -> & _) | [(e & _ & -> & _) |
                      [(e & _ & -> & _) | (_ & -> & _)]]]]; auto.
Qed.

Lemma detectAsync_this (image : string + IBufferImage) (config : option IConfig) (w : World) :
  let w' := snd (detectAsync image config w) in
  this w' = this w \/ this w' = remembered (this w).
Proof.
  cbv zeta. destruct image as [path | buf].
  - rewrite detectAsync_path_run. cbv zeta.
    destruct (rejects _ _) as [e|]; [by left|].
    match goal with |- context [_detectAsync ?a1 ?a2 ?a3 ?a4 ?a5 ?a6 ?a7] =>
      pose proof (_detectAsync_this a1 a2 a3 a4 a5 a6 a7) as Hd;
      destruct (_detectAsync a1 a2 a3 a4 a5 a6 a7) as [[ds|e] w'] end; simpl in Hd.
    + destruct (rejects _ _) as [e|]; exact Hd.
    + exact Hd.
  - rewrite detectAsync_buffer_run. cbv zeta.
    destruct (rejects _ _) as [e|]; [by left|].
    match goal with |- context [_detectAsync ?a1 ?a2 ?a3 ?a4 ?a5 ?a6 ?a7] =>
      apply (_detectAsync_this a1 a2 a3 a4 a5 a6 a7) end.
Qed.

(** How a method leaves the object: as it was, after one [rememberNet], or
    with a ring made anew, of the old capacity or of the one handed in. *)
Lemma invoke_this (m : method) (w : World) :
  this (invoke m w) = this w \/
  this (invoke m w) = remembered (this w) \/
  exists p, this (invoke m w)
            = made p (set_memoryCount (default (memoryCount (this w)) (installs m)) (this w)).
Proof.
  destruct m as [| |arg|image config|image config]; cbn [invoke installs].
  - right; right.
    exists (returns (length (trace w))
              (network_memory_make (memoryCount (this w)) (netSize (this w)))).
    rewrite makeMemory_run. destruct w as [[] tr]. reflexivity.
  - destruct (rememberNet_this w); auto.
  - right; right. eexists. rewrite resetMemory_run, makeMemory_run. reflexivity.
  - destruct (detectAsync_this image config w); auto.
  - rewrite detectFromImageAsync_run.
    match goal with |- context [_detectAsync ?a1 ?a2 ?a3 ?a4 ?a5 ?a6 ?a7] =>
      destruct (_detectAsync_this a1 a2 a3 a4 a5 a6 a7) end; auto.
Qed.

Lemma ring_invariant_this (w w' : World) :
  this w' = this w -> ring_invariant w -> ring_invariant w'.
Proof. unfold ring_invariant. by intros ->. Qed.

Lemma ring_invariant_remembered (w w' : World) :
  this w' = remembered (this w) -> ring_invariant w -> ring_invariant w'.
Proof.
  intros Hthis (N & i & u & Hc & Hi & Hu & HuN & HiN).
  exists N, ((i + 1) mod N), (Z.min (u + 1) N).
  rewrite Hthis. unfold remembered; simpl. rewrite Hc, Hi, Hu. simpl.
  destruct (N =? 0) eqn:E0; [lia|].
  rewrite Z.rem_mod_nonneg by lia.
  pose proof (Z.mod_pos_bound (i + 1) N). repeat split; try done; lia.
Qed.

Lemma ring_invariant_made (w' : World) (p : pointer) (o : DarknetBase) (n : JS.int) :
  this w' = made p (set_memoryCount n o) -> positive_capacity n -> ring_invariant w'.
Proof.
  intros Hthis (N & -> & HN). exists N, 0, 0. rewrite Hthis. simpl.
  repeat split; try done; lia.
Qed.

Lemma ring_invariant_positive (w : World) :
  ring_invariant w -> positive_capacity (memoryCount (this w)).
Proof. intros (N & i & u & Hc & _ & _ & _ & HiN). exists N. split; [done|lia]. Qed.

Lemma new_this (config_ : option IDarknetConfig) (w : World) :
  new config_ = (Ok tt, w) ->
  exists p o, this w = made p (set_memoryCount (memoryCount (this w)) o).
Proof.
  intros Hnew. destruct (new_Ok config_ w Hnew) as (cfg & names_ & _ & ->).
  eexists _, (this (constructed cfg names_)). reflexivity.
Qed.

(** C5, as the code has it: as long as every capacity handed in, at
    construction and at each [resetMemory], is an integer [>= 1], every
    reachable state has its populated count at most the capacity [N] and
    its write index in [[0, N)]. *)
Theorem ring_invariant_reachable (w : World) :
  reachable positive_capacity w -> ring_invariant w.
Proof.
  induction 1 as [config_ w Hnew Hvalid | m w Hreach IH Hvalid].
  - destruct (new_this config_ w Hnew) as (p & o & Hthis).
    by apply (ring_invariant_made w p o (memoryCount (this w))).
  - destruct (invoke_this m w) as [Hthis | [Hthis | [p Hthis]]].
    + by apply (ring_invariant_this w).
    + by apply (ring_invariant_remembered w).
    + apply (ring_invariant_made _ _ _ _ Hthis).
      destruct (installs m) as [n|]; simpl in *; [done|].
      by apply ring_invariant_positive.
Qed.

End RingInvariant.

(** ** Averaging reads written slots only *)

Section Averaging.
Context `{Library}.

Lemma written_slots_snoc (tr : list event) (e : event) :
  written_slots (tr ++ [e])
  = match ev_call e with
    | network_memory_make _ _ => []
    | network_remember_memory _ _ i => if ev_ok e then i :: written_slots tr
                                       else written_slots tr
    | _ => written_slots tr
    end.
Proof. unfold written_slots. by rewrite foldl_app. Qed.

Lemma avg_safe_nil : avg_safe [].
Proof. intros tr1 e tr2 ? ? ? ? ? ? ? ? Heq. by destruct tr1. Qed.

Lemma avg_safe_snoc (tr : list event) (e : event) :
  avg_safe tr ->
  (forall net_ size_ mem_ n iw ih th hr,
     ev_call e = network_avg_predictions net_ size_ mem_ n iw ih th hr ->
     forall s, 0 <= s -> JS.lt (JS.Int s) n -> JS.Int s ∈ written_slots tr) ->
  avg_safe (tr ++ [e]).
Proof.
  intros Hsafe He tr1 e' tr2 net_ size_ mem_ n iw ih th hr Heq Hcall.
  destruct tr2 as [|x tr2 _] using rev_ind.
  - apply app_inj_tail in Heq as [<- <-]. by eapply He.
  - rewrite app_comm_cons, app_assoc in Heq.
    apply app_inj_tail in Heq as [-> _]. by eapply Hsafe.
Qed.

Lemma invariant_neutral (o : DarknetBase) (tr : list event) (c : call) (ok : bool) :
  neutral c -> detector_invariant o tr -> detector_invariant o (tr ++ [ev c ok]).
Proof.
  intros Hc (Hslots & Hsafe & Hmeta).
  assert (Hw : written_slots (tr ++ [ev c ok]) = written_slots tr).
  { rewrite written_slots_snoc. by destruct c. }
  split; [|split; [|done]].
  - unfold slots_written in *. by rewrite Hw.
  - apply avg_safe_snoc; [done|]. intros; subst; simpl in *. by subst c.
Qed.

Lemma invariant_remember_failed (o : DarknetBase) (tr : list event) n m i :
  detector_invariant o tr ->
  detector_invariant o (tr ++ [ev (network_remember_memory n m i) false]).
Proof.
  intros (Hslots & Hsafe & Hmeta).
  split; [|split; [|done]].
  - unfold slots_written in *. by rewrite written_slots_snoc.
  - apply avg_safe_snoc; [done|]. intros; discriminate.
Qed.

Lemma invariant_remembered (o : DarknetBase) (tr : list event) n m :
  detector_invariant o tr ->
  detector_invariant (remembered o)
    (tr ++ [ev (network_remember_memory n m (memoryIndex o)) true]).
Proof.
  intros (Hslots & Hsafe & Hmeta).
  split; [|split; [|done]]; [|apply avg_safe_snoc; [done|]; intros; discriminate].
  unfold slots_written in *. rewrite written_slots_snoc. simpl.
  destruct Hslots as [(N & u & i & Hc & HN & Hu & Hi & HuN & HiN & Hfollow & Hw)
                     | [(N & u & Hc & HN & Hu & HuN) | (Hc & Hu)]].
  - left. exists N, (Z.min (u + 1) N), ((i + 1) mod N).
    rewrite Hc, Hu, Hi. simpl.
    destruct (N =? 0) eqn:E0; [lia|].
    rewrite Z.rem_mod_nonneg by lia.
    pose proof (Z.mod_pos_bound (i + 1) N).
    split; [done|]. split; [done|]. split; [done|]. split; [done|].
    split; [lia|]. split; [lia|]. split.
    + intros Hlt. assert (u + 1 < N) by lia.
      rewrite Hfollow by lia. rewrite Z.mod_small by lia. lia.
    + intros s Hs. destruct (decide (s = u)) as [->|Hne].
      * rewrite Hfollow by lia. apply list_elem_of_here.
      * apply list_elem_of_further, Hw. lia.
  - right; left. exists N, (Z.min (u + 1) N). rewrite Hc, Hu. simpl.
    repeat split; try done; lia.
  - right; right. rewrite Hc. split; [done|]. right.
    by destruct (JS.succ (memorySlotsUsed o)).
Qed.

Lemma slots_written_safe (o : DarknetBase) (tr : list event) (s : Z) :
  slots_written o tr -> 0 <= s -> JS.lt (JS.Int s) (memorySlotsUsed o) ->
  JS.Int s ∈ written_slots tr.
Proof.
  intros [(N & u & i & Hc & HN & Hu & Hi & HuN & HiN & Hfollow & Hw)
         | [(N & u & Hc & HN & Hu & HuN) | (Hc & [Hu | Hu])]] Hs Hlt;
    rewrite Hu in Hlt; simpl in Hlt; try lia; try done.
  apply Hw. lia.
Qed.

Lemma invariant_averaged (o : DarknetBase) (tr : list event) n sz m iw ih th hr ok :
  detector_invariant o tr ->
  detector_invariant o
    (tr ++ [ev (network_avg_predictions n sz m (memorySlotsUsed o) iw ih th hr) ok]).
Proof.
  intros (Hslots & Hsafe & Hmeta).
  split; [|split; [|done]].
  - unfold slots_written in *. by rewrite written_slots_snoc.
  - apply avg_safe_snoc; [done|]. intros ? ? ? ? ? ? ? ? [= <- <- <- <- <- <- <- <-] s Hs Hlt.
    by eapply slots_written_safe.
Qed.

Lemma invariant_made (o : DarknetBase) (tr : list event) (p : pointer) (n : JS.int) (sz : Z) :
  avg_safe tr -> meta_classes (meta o) = length (names o) ->
  detector_invariant (made p (set_memoryCount n o)) (tr ++ [ev (network_memory_make n sz) true]).
Proof.
  intros Hsafe Hmeta. split; [|split; [|done]];
    [|apply avg_safe_snoc; [done|]; intros; discriminate].
  unfold slots_written. simpl. destruct n as [N|].
  - destruct (decide (1 <= N)).
    + left. exists N, 0, 0. repeat split; try done; try lia.
    + right; left. exists N, 0. repeat split; try done; lia.
  - right; right. auto.
Qed.

Lemma _detectAsync_invariant (net_ : pointer) (meta_ : METADATA) (image : IMAGE)
    (th hr nm : JS.number) (w : World) :
  let w' := snd (_detectAsync net_ meta_ image th hr nm w) in
  detector_invariant (this w) (trace w) -> detector_invariant (this w') (trace w').
Proof.
  intros w' Hinv. unfold w'.
  destruct (_detectAsync_outcome net_ meta_ image th hr nm w) as (l & -> & Hcases).
  destruct Hcases as [(e & _ & -> & ->) | [(e & _ & -> & ->) | [(e & _ & -> & ->) |
                      [(e & _ & -> & ->) | (_ & -> & ->)]]]].
  - by apply invariant_neutral.
  - change [?a; ?b] with ([a] ++ [b]). rewrite app_assoc.
    by apply invariant_remember_failed, invariant_neutral.
  - change [?a; ?b; ?c] with ([a] ++ [b] ++ [c]). rewrite !app_assoc.
    by apply invariant_averaged, invariant_remembered, invariant_neutral.
  - change [?a; ?b; ?c; ?d] with ([a] ++ [b] ++ [c] ++ [d]). rewrite !app_assoc.
    apply invariant_neutral; [done|].
    by apply invariant_averaged, invariant_remembered, invariant_neutral.
  - change [?a; ?b; ?c; ?d; ?e] with ([a] ++ [b] ++ [c] ++ [d] ++ [e]). rewrite !app_assoc.
    apply invariant_neutral; [done|]. apply invariant_neutral; [done|].
    by apply invariant_averaged, invariant_remembered, invariant_neutral.
Qed.

Lemma invoke_invariant (m : method) (w : World) :
  detector_invariant (this w) (trace w) ->
  detector_invariant (this (invoke m w)) (trace (invoke m w)).
Proof.
  intros Hinv. destruct m as [| |arg|image config|image config]; cbn [invoke].
  - rewrite makeMemory_run. cbn [snd this trace].
    destruct Hinv as (_ & Hsafe & Hmeta).
    pose proof (invariant_made (this w) (trace w)
                  (returns (length (trace w))
                     (network_memory_make (memoryCount (this w)) (netSize (this w))))
                  (memoryCount (this w)) (netSize (this w)) Hsafe Hmeta) as Hm.
    destruct w as [[] tr]. exact Hm.
  - rewrite rememberNet_run. cbv zeta. destruct (rejects _ _) as [e|]; cbn [snd this trace log].
    + by apply invariant_remember_failed.
    + by apply invariant_remembered.
  - rewrite resetMemory_run, makeMemory_run. cbn [snd this trace].
    apply (invariant_neutral _ _ (network_memory_free (memory (this w)) (memoryCount (this w)))
             true I) in Hinv.
    destruct Hinv as (_ & Hsafe & Hmeta).
    exact (invariant_made (this w) _ _ _ _ Hsafe Hmeta).
  - destruct image as [path | buf].
    + rewrite detectAsync_path_run. cbv zeta.
      destruct (rejects _ _) as [e|]; [by apply invariant_neutral|].
      apply (invariant_neutral _ _ (load_image_color path 0 0) true I) in Hinv.
      match goal with |- context [_detectAsync ?a1 ?a2 ?a3 ?a4 ?a5 ?a6 ?a7] =>
        pose proof (_detectAsync_invariant a1 a2 a3 a4 a5 a6 a7 Hinv) as Hd;
        destruct (_detectAsync a1 a2 a3 a4 a5 a6 a7) as [[ds|e] w'] end; simpl in Hd.
      * destruct (rejects _ _) as [e|]; by apply invariant_neutral.
      * exact Hd.
    + rewrite detectAsync_buffer_run. cbv zeta.
      destruct (rejects _ _) as [e|]; [by apply invariant_neutral|].
      apply _detectAsync_invariant. by apply invariant_neutral.
  - rewrite detectFromImageAsync_run. by apply _detectAsync_invariant.
Qed.

Lemma reachable_invariant (valid : JS.int -> Prop) (w : World) :
  reachable valid w -> detector_invariant (this w) (trace w).
Proof.
  induction 1 as [config_ w Hnew _ | m w _ IH _]; [|by apply invoke_invariant].
  destruct (new_Ok config_ w Hnew) as (cfg & names_ & _ & ->).
  unfold constructed. cbv zeta. cbn [this trace].
  match goal with |- detector_invariant _ [?a; ?b; ?c] =>
    change [a; b; c] with ([a; b] ++ [c]) end.
  match goal with |- detector_invariant ?o _ =>
    pose proof (invariant_made (set_memorySlotsUsed JS.NaN o)) as Hm end.
  eapply Hm; [|reflexivity].
  change [?a; ?b] with (([] ++ [a]) ++ [b]).
  repeat (apply avg_safe_snoc; [|intros; discriminate]). apply avg_safe_nil.
Qed.


Lemma bufferToDetections_well_formed (o : DarknetBase) (buffer : nat -> DETECTION) (num : Z) :
  meta_classes (meta o) = length (names o) ->
  Forall (well_formed o) (bufferToDetections o buffer num).
Proof.
  intros Hmeta. rewrite bufferToDetections_bind.
  apply Forall_forall. intros d Hd.
  apply list_elem_of_bind in Hd as (i & Hd & _).
  unfold record_entries in Hd. apply list_elem_of_fmap in Hd as (j & -> & Hj).
  unfold positive_classes in Hj.
  apply list_elem_of_In, List.filter_In in Hj as [Hj Hgt].
  apply list_elem_of_In, elem_of_seq in Hj.
  destruct (lookup_lt_is_Some_2 (names o) j) as [nm Hnm]; [lia|].
  exists j, nm. simpl. by rewrite Hnm.
Qed.

Lemma _detectAsync_result (net_ : pointer) (meta_ : METADATA) (image : IMAGE)
    (th hr nm : JS.number) (w : World) (ds : list Detection) :
  fst (_detectAsync net_ meta_ image th hr nm w) = Ok ds ->
  exists buffer num, ds = bufferToDetections (remembered (this w)) buffer num.
Proof.
  intros Hok.
  destruct (_detectAsync_outcome net_ meta_ image th hr nm w) as (l & _ & Hcases).
  destruct Hcases as [(e & Hr & _) | [(e & Hr & _) | [(e & Hr & _) |
                      [(e & Hr & _) | (Hr & _)]]]]; rewrite Hr in Hok; try discriminate.
  injection Hok as <-. by eexists _, _.
Qed.

Lemma detectAsync_result (image : string + IBufferImage) (config : option IConfig)
    (w : World) (ds : list Detection) :
  fst (detectAsync image config w) = Ok ds ->
  exists buffer num, ds = bufferToDetections (remembered (this w)) buffer num.
Proof.
  destruct image as [path | buf].
  - rewrite detectAsync_path_run. cbv zeta.
    destruct (rejects _ _) as [e|]; [discriminate|].
    match goal with |- context [_detectAsync ?a1 ?a2 ?a3 ?a4 ?a5 ?a6 ?a7] =>
      pose proof (_detectAsync_result a1 a2 a3 a4 a5 a6 a7) as Hd;
      destruct (_detectAsync a1 a2 a3 a4 a5 a6 a7) as [[ds'|e] w'] end;
      simpl in Hd; [|discriminate].
    destruct (rejects _ _) as [e|]; [discriminate|].
    intros [= <-]. by apply Hd.
  - rewrite detectAsync_buffer_run. cbv zeta.
    destruct (rejects _ _) as [e|]; [discriminate|].
    apply (_detectAsync_result _ _ _ _ _ _ (log _ true w)).
Qed.

Lemma _detectAsync_succeeds (net_ : pointer) (meta_ : METADATA) (image : IMAGE)
    (th hr nm : JS.number) (w : World) :
  native_calls_succeed w ->
  exists ds, fst (_detectAsync net_ meta_ image th hr nm w) = Ok ds.
Proof.
  intros Hnone. unfold native_calls_succeed in Hnone.
  unfold _detectAsync, avgPrediction, rememberNet.
  unfold mbind, M_bind, mret, M_ret, get, clock, modify, call_async, call_sync, log.
  simpl.
  rewrite Hnone by lia. simpl.
  rewrite Hnone by (rewrite length_app; lia). simpl.
  rewrite Hnone by (rewrite !length_app; lia). simpl.
  destruct (returns _ _) as [dets num]. simpl.
  rewrite Hnone by (rewrite !length_app; lia). simpl.
  by eexists.
Qed.

Lemma native_calls_succeed_later (w w' : World) (l : list event) :
  trace w' = trace w ++ l -> native_calls_succeed w -> native_calls_succeed w'.
Proof.
  intros Htr Hnone t c Ht. apply Hnone. rewrite Htr, length_app in Ht. lia.
Qed.

Lemma detectAsync_succeeds (image : string + IBufferImage) (config : option IConfig)
    (w : World) :
  native_calls_succeed w ->
  exists ds, fst (detectAsync image config w) = Ok ds.
Proof.
  intros Hnone.
  destruct image as [path | buf].
  - rewrite detectAsync_path_run. cbv zeta.
    rewrite (Hnone (length (trace w))) by lia.
    match goal with |- context [_detectAsync ?a1 ?a2 ?a3 ?a4 ?a5 ?a6 ?a7] =>
      destruct (_detectAsync_succeeds a1 a2 a3 a4 a5 a6 a7) as [ds Hds];
        [by apply (native_calls_succeed_later w _ [ev (load_image_color path 0 0) true])|];
      destruct (_detectAsync_outcome a1 a2 a3 a4 a5 a6 a7) as (l & Htr & _);
      destruct (_detectAsync a1 a2 a3 a4 a5 a6 a7) as [[ds'|e] w'] end;
      simpl in Hds, Htr; [|discriminate].
    rewrite (Hnone (length (trace w'))) by (rewrite Htr, !length_app; lia).
    by eexists.
  - rewrite detectAsync_buffer_run. cbv zeta.
    rewrite (Hnone (length (trace w))) by lia.
    apply _detectAsync_succeeds.
    by eapply (native_calls_succeed_later w _ [ev _ true]).
Qed.


End Averaging.

(** ** The properties at work on the sample worlds *)

Lemma rgbToDarknet_planar_sample :
  length sample_buffer = (2 * 2 * 3)%nat /\
  length (rgbToDarknet sample_buffer 2 2 3) = (2 * 2 * 3)%nat /\
  exists b, sample_buffer !! (1 * (3 * 2) + 0 * 3 + 2)%nat = Some b /\
            rgbToDarknet sample_buffer 2 2 3 !! (2 * 2 * 2 + 1 * 2 + 0)%nat
            = Some (quotient32 b).
Proof.
  split; [reflexivity|].
  destruct (rgbToDarknet_planar sample_buffer 2 2 3 eq_refl) as [Hlen Hel].
  split; [exact Hlen|].
  destruct (Hel 1 0 2)%nat as (b & Hb & Hv & Hq); [lia..|].
  exists b. split; [exact Hb|]. rewrite Hv. f_equal. exact Hq.
Defined.

Lemma codec_roundtrip_sample :
  length sample_buffer = (2 * 2 * 3)%nat /\
  sample_buffer !! 4%nat = Some x80 /\
  exists b', imageToRGBBuffer (fun n => replicate n x07)
               {| image_w := 2; image_h := 2; image_c := 3;
                  image_data := float_memory (rgbToDarknet sample_buffer 2 2 3) |} !! 4%nat
             = Some b' /\ sample_distance b' x80 <= 1.
Proof.
  split; [reflexivity|]. split; [reflexivity|].
  destruct (codec_roundtrip (fun n => replicate n x07) sample_buffer 2 2 3
              (fun n => length_replicate n x07) eq_refl) as [_ Hel].
  destruct (Hel 4%nat x80 eq_refl) as (b' & Hb' & Hd & _).
  exists b'. split; [exact Hb' | exact Hd].
Defined.

Lemma bufferToDetections_entries_sample :
  let o := this (snd (@new calm (Some sample_config))) in
  positive_classes o sample_detection = [0; 2]%nat /\
  exists e1 e2,
    record_entries o sample_detection = [e1; e2] /\
    name e1 = Some "a"%string /\ name e2 = Some "c"%string /\
    box e1 = sample_box /\ box e2 = sample_box.
Proof.
  intros o. split; [reflexivity|].
  destruct (bufferToDetections_entries o (fun _ => sample_detection) 1)
    as (_ & _ & _ & Htwo).
  destruct (Htwo sample_detection 0 2 eq_refl)%nat as (e1 & e2 & He & Hn1 & Hn2 & Hb1 & Hb2).
  exists e1, e2. split; [exact He|]. split; [exact Hn1|]. split; [exact Hn2|].
  split; [exact Hb1 | exact Hb2].
Defined.

Lemma rememberNet_cycles_sample :
  let w0 := snd (@new calm (Some sample_config)) in
  let fresh := snd (@makeMemory calm w0) in
  1 <= 3 /\
  memoryCount (this w0) = JS.Int 3 /\
  fst (@remember_times calm 4 fresh) = Ok tt /\
  memoryIndex (this (snd (@remember_times calm 4 fresh))) = JS.Int (Z.of_nat 4 mod 3) /\
  memorySlotsUsed (this (snd (@remember_times calm 4 fresh))) = JS.Int 3.
Proof.
  intros w0 fresh.
  assert (H3 : 1 <= 3) by lia.
  split; [exact H3|]. split; [reflexivity|]. split; [reflexivity|].
  destruct (@rememberNet_cycles calm w0 3 4 H3 eq_refl) as (_ & _ & Hk & _).
  destruct (Hk eq_refl) as (Hi & _ & Hfull).
  split; [exact Hi|]. apply Hfull. simpl. lia.
Defined.

Lemma calm_world_reachable (valid : JS.int -> Prop) :
  valid (JS.Int 3) ->
  @reachable calm valid
    (@invoke calm (DetectAsync (inr sample_bytes) None)
       (snd (@new calm (Some sample_config)))).
Proof.
  intros Hvalid. apply (@reachable_invoke calm); [|exact I].
  by apply (@reachable_new calm valid (Some sample_config)).
Qed.

Lemma ring_invariant_reachable_sample :
  @reachable calm positive_capacity
    (@invoke calm (DetectAsync (inr sample_bytes) None)
       (snd (@new calm (Some sample_config)))) /\
  ring_invariant
    (@invoke calm (DetectAsync (inr sample_bytes) None)
       (snd (@new calm (Some sample_config)))).
Proof.
  assert (Hreach : @reachable calm positive_capacity
            (@invoke calm (DetectAsync (inr sample_bytes) None)
               (snd (@new calm (Some sample_config))))).
  { apply calm_world_reachable. exists 3. split; [reflexivity | lia]. }
  split; [exact Hreach|].
  exact (@ring_invariant_reachable calm _ Hreach).
Defined.

(** With a capacity of zero the write index has nowhere to be. *)
Lemma ring_invariant_fails_at_capacity_zero :
  let w := @invoke calm (ResetMemory (Some (JS.Int 0)))
             (snd (@new calm (Some sample_config))) in
  @reachable calm (fun _ => True) w /\ ~ ring_invariant w.
Proof.
  intros w. split.
  - apply (@reachable_invoke calm); [|exact I].
    by apply (@reachable_new calm _ (Some sample_config)).
  - intros (N & i & u & Hc & Hi & _ & _ & HiN).
    vm_compute in Hc. injection Hc as <-. lia.
Qed.

Lemma detectAsync_frees_sample :
  let w := snd (@new calm (Some sample_config)) in
  let r := @detectAsync calm (inl "dog.jpg"%string) None w in
  (exists ds, fst r = Ok ds) /\
  List.filter is_free_detections (added w (snd r)) = [ev (free_detections 3000 1) true] /\
  List.filter is_free_image (added w (snd r)) = [ev (free_image sample_image) true].
Proof.
  intros w r.
  destruct (@detectAsync_frees calm (inl "dog.jpg"%string) None w) as (_ & _ & _ & Hok & _).
  destruct (Hok _ eq_refl) as [(t & c & dn & Hev & Ht & Hdn & Hfree) Himg].
  destruct (Himg _ eq_refl) as (img & _ & Halloc & Hfreed).
  split; [by eexists|]. split.
  - exact (eq_refl : List.filter is_free_detections (added w (snd r)) = _).
  - injection Halloc as <-. exact Hfreed.
Defined.

(** When [do_nms_obj] fails, the detection array and the image loaded from
    the path have been allocated and neither is freed. *)
Lemma detectAsync_leaks_when_nms_fails :
  let w := snd (@new nms_fails (Some sample_config)) in
  let r := @detectAsync nms_fails (inl "dog.jpg"%string) None w in
  fst r = Throw "do_nms_obj failed"%string /\
  count is_detections_alloc (added w (snd r)) = 1%nat /\
  count is_image_alloc (added w (snd r)) = 1%nat /\
  count is_free_detections (added w (snd r)) = 0%nat /\
  count is_free_image (added w (snd r)) = 0%nat /\
  ~ frees_match_allocations (added w (snd r)).
Proof.
  intros w r. repeat (split; [reflexivity|]).
  intros [Hd _]. vm_compute in Hd. discriminate Hd.
Qed.






(** * Further properties *)

(** ** Image codec, beyond the round trip *)

Lemma byte_normalised (b : byte) :
  normalised (JS.fround (JS.div (JS.of_byte b) (JS.of_Z 255))) = true.
Proof. destruct b; vm_compute; reflexivity. Qed.

Section CodecEdges.
Local Open Scope nat_scope.

(** Every position of a planar array is the position of one sample. *)
Lemma planar_surj w h c p :
  p < w * h * c ->
  exists i j k, i < h /\ j < w /\ k < c /\ p = k * w * h + i * w + j.
Proof.
  intros Hp.
  assert (0 < h) by nia. assert (0 < w) by nia.
  assert (Hwh : w * h <> 0) by nia.
  pose proof (Nat.div_mod_eq p (w * h)) as E1.
  pose proof (Nat.mod_upper_bound p (w * h) Hwh) as B1.
  set (r := Nat.modulo p (w * h)) in *.
  pose proof (Nat.div_mod_eq r w) as E2.
  pose proof (Nat.mod_upper_bound r w ltac:(lia)) as B2.
  exists (Nat.div r w), (Nat.modulo r w), (Nat.div p (w * h)).
  repeat split.
  - apply Nat.Div0.div_lt_upper_bound. nia.
  - exact B2.
  - apply Nat.Div0.div_lt_upper_bound. nia.
  - nia.
Qed.

Lemma lookup_rgbToDarknet_normalised (buffer : list byte) (w h c p : nat) (x : JS.number) :
  length buffer = w * h * c ->
  rgbToDarknet buffer w h c !! p = Some x -> normalised x = true.
Proof.
  intros Hlen Hx.
  assert (Hp : p < w * h * c).
  { rewrite <- (length_rgbToDarknet buffer w h c). by eapply lookup_lt_Some. }
  destruct (planar_surj w h c p Hp) as (i & j & k & Hi & Hj & Hk & ->).
  rewrite lookup_rgbToDarknet in Hx by done. injection Hx as <-.
  assert (Hin : i * (w * c) + j * c + k < length buffer)
    by (rewrite Hlen; by apply interleaved_lt).
  apply lookup_lt_is_Some in Hin as [b ->]. apply byte_normalised.
Qed.

(** X1: the planar form of a buffer of [w*h*c] bytes holds only floats
    between 0 and 1. *)
Theorem rgbToDarknet_normalised (buffer : list byte) (w h c : nat) :
  length buffer = w * h * c ->
  Forall (fun x => normalised x = true) (rgbToDarknet buffer w h c).
Proof.
  intros Hlen. apply Forall_lookup. intros p x Hx.
  by eapply lookup_rgbToDarknet_normalised.
Qed.

(** X2: where the buffer is too short to hold a sample, the planar form
    holds [NaN] for it. *)
Theorem rgbToDarknet_short_buffer (buffer : list byte) (w h c i j k : nat) :
  i < h -> j < w -> k < c ->
  length buffer <= i * (w * c) + j * c + k ->
  rgbToDarknet buffer w h c !! (k * w * h + i * w + j) = Some S754_nan.
Proof.
  intros Hi Hj Hk Hshort. rewrite lookup_rgbToDarknet by done.
  by rewrite (lookup_ge_None_2 buffer _ Hshort).
Qed.

(** X3: the bytes of the buffer beyond the first [w*h*c] play no part. *)
Theorem rgbToDarknet_ignores_excess (buffer extra : list byte) (w h c : nat) :
  length buffer = w * h * c ->
  rgbToDarknet (buffer ++ extra) w h c = rgbToDarknet buffer w h c.
Proof.
  intros Hlen. apply list_eq_same_length with (w * h * c);
    [apply length_rgbToDarknet | apply length_rgbToDarknet |].
  intros p x y Hp Hx Hy.
  destruct (planar_surj w h c p Hp) as (i & j & k & Hi & Hj & Hk & ->).
  rewrite lookup_rgbToDarknet in Hx, Hy by done.
  rewrite lookup_app_l in Hx by (rewrite Hlen; by apply interleaved_lt).
  congruence.
Qed.

(** X4: [imageToRGBBuffer] overwrites every byte that [Buffer.allocUnsafe]
    handed it: its result has [w*h*c] bytes and does not depend on what the
    allocator held. *)
Theorem imageToRGBBuffer_overwrites allocUnsafe allocUnsafe' (image : IMAGE) :
  (forall n, length (allocUnsafe n) = n) ->
  (forall n, length (allocUnsafe' n) = n) ->
  length (imageToRGBBuffer allocUnsafe image)
  = image_w image * image_h image * image_c image /\
  imageToRGBBuffer allocUnsafe image = imageToRGBBuffer allocUnsafe' image.
Proof.
  intros Ha Ha'. split; [by apply length_imageToRGBBuffer|].
  apply list_eq_same_length with (image_w image * image_h image * image_c image);
    [by apply length_imageToRGBBuffer | by apply length_imageToRGBBuffer |].
  intros p x y Hp Hx Hy.
  destruct (interleaved_surj _ _ _ p Hp) as (i & j & k & Hi & Hj & Hk & ->).
  rewrite (lookup_imageToRGBBuffer allocUnsafe image i j k) in Hx by done.
  rewrite (lookup_imageToRGBBuffer allocUnsafe' image i j k) in Hy by done.
  congruence.
Qed.

Lemma non_finite_ToUint8 (x : spec_float) :
  non_finite x = true ->
  JS.ToUint8 (JS.mul (JS.of_float32 x) (JS.of_Z 255)) = x00.
Proof. destruct x as [s|[]| |s m e]; try discriminate; reflexivity. Qed.

(** X5: a pixel sample that is [NaN] or infinite comes out as the byte 0. *)
Theorem imageToRGBBuffer_non_finite allocUnsafe (image : IMAGE) (i j k : nat) :
  (forall n, length (allocUnsafe n) = n) ->
  i < image_h image -> j < image_w image -> k < image_c image ->
  non_finite (image_data image (k * image_w image * image_h image + i * image_w image + j))
  = true ->
  imageToRGBBuffer allocUnsafe image
    !! (i * (image_w image * image_c image) + j * image_c image + k) = Some x00.
Proof.
  intros Ha Hi Hj Hk Hnf.
  rewrite (lookup_imageToRGBBuffer allocUnsafe image i j k) by done.
  f_equal. by apply non_finite_ToUint8.
Qed.

(** X6: the codec's round trip is exact: [imageToRGBBuffer] gives back the
    very bytes [rgbToDarknet] was given. *)
Theorem codec_roundtrip_identity allocUnsafe (B : list byte) (w h c : nat) :
  (forall n, length (allocUnsafe n) = n) ->
  length B = w * h * c ->
  imageToRGBBuffer allocUnsafe
    {| image_w := w; image_h := h; image_c := c;
       image_data := float_memory (rgbToDarknet B w h c) |} = B.
Proof. apply codec_roundtrip_exact. Qed.

End CodecEdges.

(** ** Decoder, beyond the entries *)

Section DecoderEdges.
Local Open Scope nat_scope.

(** X7: [getArrayFromBuffer] reads the first [length] floats behind the
    pointer, in order, and nothing when [length] is zero. *)
Theorem getArrayFromBuffer_reads (buffer : float_pointer) (n : nat) :
  length (getArrayFromBuffer buffer n) = n /\
  (forall j, j < n -> getArrayFromBuffer buffer n !! j = Some (JS.of_float32 (buffer j))) /\
  (forall j, n <= j -> getArrayFromBuffer buffer n !! j = None) /\
  getArrayFromBuffer buffer 0 = [].
Proof.
  assert (Hlen : length (getArrayFromBuffer buffer n) = n)
    by (by rewrite getArrayFromBuffer_fmap, length_fmap, length_seq).
  split; [exact Hlen|]. split; [|split; [|reflexivity]].
  - intros j Hj. by apply lookup_getArrayFromBuffer.
  - intros j Hj. apply lookup_ge_None_2. by rewrite Hlen.
Qed.

Lemma length_bind_le {A B : Type} (f : A -> list B) (l : list A) (c : nat) :
  (forall x, length (f x) <= c) -> length (l ≫= f) <= length l * c.
Proof.
  intros Hf. induction l as [|x l IH]; [simpl; lia|].
  rewrite bind_cons, length_app. simpl. specialize (Hf x). lia.
Qed.

Lemma length_record_entries (o : DarknetBase) (det : DETECTION) :
  length (record_entries o det) <= meta_classes (meta o).
Proof.
  unfold record_entries, positive_classes. rewrite length_fmap.
  etrans; [apply List.filter_length_le|]. by rewrite length_seq.
Qed.

(** X8: the decoder emits at most [classes] entries per record, so at most
    [length * classes] in all; it emits none when [length] is zero or
    negative, and none when the detector has no class. *)
Theorem bufferToDetections_bounds (o : DarknetBase) (buffer : nat -> DETECTION) (num : Z) :
  length (bufferToDetections o buffer num) <= Z.to_nat num * meta_classes (meta o) /\
  ((num <= 0)%Z -> bufferToDetections o buffer num = []) /\
  (meta_classes (meta o) = 0 -> bufferToDetections o buffer num = []).
Proof.
  rewrite bufferToDetections_bind. split; [|split].
  - etrans; [apply length_bind_le; intros i; apply length_record_entries|].
    by rewrite length_seq.
  - intros Hneg. replace (Z.to_nat num) with 0 by lia. reflexivity.
  - intros Hzero. apply length_zero_iff_nil.
    pose proof (length_bind_le (fun i => record_entries o (buffer i))
                  (seq 0 (Z.to_nat num)) 0) as Hle.
    rewrite Nat.mul_0_r in Hle. apply Nat.le_0_r, Hle.
    intros i. rewrite <- Hzero. apply length_record_entries.
Qed.

(** X9: the entries come out in the order of the records, and within a
    record in the order of the classes: decoding one record more appends
    its entries. *)
Theorem bufferToDetections_appends (o : DarknetBase) (buffer : nat -> DETECTION) (n : nat) :
  bufferToDetections o buffer (Z.of_nat (S n))
  = bufferToDetections o buffer (Z.of_nat n) ++ record_entries o (buffer n).
Proof.
  rewrite !bufferToDetections_bind, !Nat2Z.id.
  rewrite seq_S, bind_app. simpl. by rewrite app_nil_r.
Qed.

End DecoderEdges.

(** ** Thresholds, beyond the defaults *)


(** ** One detection, beyond the frees *)

Section DetectionEdges.
Context `{Library}.

(** X11: [_detectAsync] makes its native calls in one fixed order (predict,
    remember, average, suppress, free the detections) and stops at the
    first that fails; when none fails it returns the entries decoded from
    the array as native memory holds it after the suppression and before
    the free. *)
Theorem _detectAsync_protocol (net_ : pointer) (meta_ : METADATA) (image : IMAGE)
    (th hr nm : JS.number) (w : World) :
  let r := _detectAsync net_ meta_ image th hr nm w in
  let cs := detection_calls net_ meta_ image th hr nm w in
  (exists dets num,
     cs !! 4%nat = Some (free_detections dets num) /\
     fst r = Ok (bufferToDetections (remembered (this w))
                   (ref_get (length (trace w) + 4) dets) num) /\
     added w (snd r) = (fun c => ev c true) <$> cs) \/
  (exists e n c,
     (n < 4)%nat /\ cs !! n = Some c /\
     fst r = Throw e /\
     added w (snd r) = ((fun c => ev c true) <$> take n cs) ++ [ev c false]).
Proof.
  cbv zeta.
  destruct (_detectAsync_outcome net_ meta_ image th hr nm w) as (l & Htr & Hcases).
  rewrite (added_app w _ l Htr). cbv zeta in Hcases.
  destruct Hcases as [(e & Hr & _ & ->) | [(e & Hr & _ & ->) | [(e & Hr & _ & ->) |
                      [(e & Hr & _ & ->) | (Hr & _ & ->)]]]].
  - right. exists e, 0%nat. eexists. split; [lia|]. split; [reflexivity|]. by split.
  - right. exists e, 1%nat. eexists. split; [lia|]. split; [reflexivity|]. by split.
  - right. exists e, 2%nat. eexists. split; [lia|]. split; [reflexivity|]. by split.
  - right. exists e, 3%nat. eexists. split; [lia|]. split; [reflexivity|]. by split.
  - left. eexists _, _. split; [reflexivity|]. by split.
Qed.

(** X12: [detectFromImageAsync] never loads and never frees an image; it
    frees the detection array exactly once when it returns, and never when
    it fails. *)
Theorem detectFromImageAsync_frees (image : IMAGE) (config : option IConfig) (w : World) :
  let r := detectFromImageAsync image config w in
  let tr := added w (snd r) in
  count is_free_image tr = 0%nat /\
  count is_image_alloc tr = 0%nat /\
  (forall ds, fst r = Ok ds ->
     count is_detections_alloc tr = 1%nat /\ count is_free_detections tr = 1%nat) /\
  (forall e, fst r = Throw e -> count is_free_detections tr = 0%nat).
Proof.
  cbv zeta. rewrite detectFromImageAsync_run.
  generalize (thresholds config). intros [[th hr] nm]. cbn [fst snd].
  destruct (_detectAsync_outcome (net (this w)) (meta (this w)) image th hr nm w)
    as (l & Htr & Hcases).
  rewrite (added_app w _ l Htr). cbv zeta in Hcases.
  destruct Hcases as [(e & Hr & _ & ->) | [(e & Hr & _ & ->) | [(e & Hr & _ & ->) |
                      [(e & Hr & _ & ->) | (Hr & _ & ->)]]]];
    rewrite Hr; repeat split; try done.
Qed.

Lemma _detectAsync_advance (net_ : pointer) (meta_ : METADATA) (image : IMAGE)
    (th hr nm : JS.number) (w w0 : World) (pre : list event) :
  trace w = trace w0 ++ pre ->
  remember_ok pre = false ->
  let d := _detectAsync net_ meta_ image th hr nm w in
  this (snd d) = (if remember_ok (added w0 (snd d)) then remembered (this w) else this w) /\
  (forall ds, fst d = Ok ds -> remember_ok (added w0 (snd d)) = true).
Proof.
  intros Hpre Hno. cbv zeta.
  destruct (_detectAsync_outcome net_ meta_ image th hr nm w) as (l & Htr & Hcases).
  rewrite (added_app w0 _ (pre ++ l)) by (rewrite Htr, Hpre; by rewrite app_assoc).
  unfold remember_ok in *. rewrite existsb_app, Hno. cbv zeta in Hcases.
  destruct Hcases as [(e & Hr & -> & ->) | [(e & Hr & -> & ->) | [(e & Hr & -> & ->) |
                      [(e & Hr & -> & ->) | (Hr & -> & ->)]]]];
    rewrite Hr; split; try done.
Qed.

(** X13: a detection advances the memory ring by one [rememberNet] exactly
    when its [network_remember_memory] call came back without an error, and
    leaves the ring alone otherwise; so a detection that returns has
    advanced it, and so has one that fails later, in the averaging, the
    suppression or the freeing of the image. *)
Theorem detection_advances_ring (w : World) :
  let advanced (r : result (list Detection) * World) :=
    this (snd r) = (if remember_ok (added w (snd r)) then remembered (this w) else this w) /\
    (forall ds, fst r = Ok ds -> remember_ok (added w (snd r)) = true) in
  (forall image config, advanced (detectAsync image config w)) /\
  (forall image config, advanced (detectFromImageAsync image config w)).
Proof.
  cbv zeta. split; intros image config.
  - destruct image as [path | buf].
    + rewrite detectAsync_path_run. cbv zeta.
      destruct (rejects _ _) as [e|].
      { erewrite added_app by (unfold log; simpl; reflexivity). by split. }
      match goal with |- context [_detectAsync ?a1 ?a2 ?a3 ?a4 ?a5 ?a6 ?a7] =>
        pose proof (_detectAsync_advance a1 a2 a3 a4 a5 a6 a7 w
                      [ev (load_image_color path 0 0) true] eq_refl eq_refl) as Hd;
        pose proof (_detectAsync_outcome a1 a2 a3 a4 a5 a6 a7) as (l & Htr & _);
        destruct (_detectAsync a1 a2 a3 a4 a5 a6 a7) as [[ds|e] w'] end;
        cbv zeta in Hd; simpl in Hd, Htr; [|exact Hd].
      assert (Hw' : trace w' = trace w ++ added w w').
      { unfold added. rewrite Htr, <- app_assoc. by rewrite drop_app_length. }
      destruct Hd as [Hthis Hok]. specialize (Hok ds eq_refl).
      destruct (rejects _ _) as [e|]; simpl;
        (erewrite added_app by (unfold log; simpl; rewrite Hw', <- app_assoc; reflexivity));
        unfold remember_ok in *; rewrite existsb_app, Hok in *; by split.
    + rewrite detectAsync_buffer_run. cbv zeta.
      destruct (rejects _ _) as [e|].
      { erewrite added_app by (unfold log; simpl; reflexivity). by split. }
      eapply (_detectAsync_advance _ _ _ _ _ _ (log _ true w)); reflexivity.
  - rewrite detectFromImageAsync_run.
    eapply (_detectAsync_advance _ _ _ _ _ _ w w []); [by rewrite app_nil_r | reflexivity].
Qed.

(** X23: given a buffer of [w*h*c] bytes, [detectAsync] first hands
    [float_to_image] the planar form of those bytes, [w*h*c] floats between
    0 and 1, with the caller's dimensions, and, when that call succeeds,
    next hands [network_predict_image] the image it returned. *)
Theorem detectAsync_hands_planar (image : IBufferImage) (config : option IConfig)
    (w : World) :
  length (buf_b image) = (buf_w image * buf_h image * buf_c image)%nat ->
  let data := rgbToDarknet (buf_b image) (buf_w image) (buf_h image) (buf_c image) in
  let c0 := float_to_image (buf_w image) (buf_h image) (buf_c image) data in
  length data = (buf_w image * buf_h image * buf_c image)%nat /\
  Forall (fun x => normalised x = true) data /\
  exists ok rest,
    added w (snd (detectAsync (inr image) config w)) = ev c0 ok :: rest /\
    (ok = false -> rest = []) /\
    (ok = true ->
     exists ok' rest',
       rest = ev (network_predict_image (net (this w)) (returns (length (trace w)) c0)) ok'
              :: rest').
Proof.
  intros Hlen data c0.
  split; [apply length_rgbToDarknet|]. split; [apply Forall_lookup; intros p x Hx; by eapply lookup_rgbToDarknet_normalised|].
  rewrite detectAsync_buffer_run. cbv zeta. fold data. fold c0.
  destruct (rejects _ _) as [e|].
  { exists false, []. erewrite added_app by (unfold log; simpl; reflexivity).
    by repeat split. }
  match goal with |- context [_detectAsync ?a1 ?a2 ?a3 ?a4 ?a5 ?a6 ?a7] =>
    destruct (_detectAsync_outcome a1 a2 a3 a4 a5 a6 a7) as (l & Htr & Hcases) end.
  cbv zeta in Hcases. exists true, l.
  split; [|split; [discriminate|]].
  - apply added_app. rewrite Htr. unfold log; simpl. by rewrite <- app_assoc.
  - intros _.
    destruct Hcases as [(e & _ & _ & ->) | [(e & _ & _ & ->) | [(e & _ & _ & ->) |
                        [(e & _ & _ & ->) | (_ & _ & ->)]]]]; by eexists _, _.
Qed.

End DetectionEdges.

(** ** The ring over several calls *)

Section RingEdges.
Context `{Library}.

Lemma detectFromImageAsync_Ok (image : IMAGE) (config : option IConfig) (w : World)
    (ds : list Detection) :
  fst (detectFromImageAsync image config w) = Ok ds ->
  this (snd (detectFromImageAsync image config w)) = remembered (this w).
Proof.
  intros Hok. revert Hok. rewrite detectFromImageAsync_run. intros Hok.
  match goal with |- context [_detectAsync ?a1 ?a2 ?a3 ?a4 ?a5 ?a6 w] =>
    destruct (_detectAsync_advance a1 a2 a3 a4 a5 a6 w w [])
      as [Hthis Hrem]; [by rewrite app_nil_r | reflexivity |] end.
  by rewrite Hthis, (Hrem ds Hok).
Qed.

Lemma detect_each_slots (calls : list (IMAGE * option IConfig)) (w : World) (N u : Z) :
  1 <= N -> 0 <= u <= N ->
  memoryCount (this w) = JS.Int N ->
  memorySlotsUsed (this w) = JS.Int u ->
  fst (detect_each calls w) = Ok tt ->
  memoryCount (this (snd (detect_each calls w))) = JS.Int N /\
  memorySlotsUsed (this (snd (detect_each calls w)))
  = JS.Int (Z.min (u + Z.of_nat (length calls)) N).
Proof.
  intros HN. revert w u.
  induction calls as [|[image config] calls IH]; intros w u Hu Hc Hs Hok.
  - simpl. split; [done|]. rewrite Hs. f_equal. lia.
  - cbn [detect_each] in *. unfold mbind, M_bind in *.
    pose proof (detectFromImageAsync_Ok image config w) as Hstep.
    destruct (detectFromImageAsync image config w) as [[ds|e] w'];
      simpl in *; [|discriminate].
    specialize (Hstep ds eq_refl).
    destruct (IH w' (Z.min (u + 1) N)) as [Hc' Hs']; try done; try lia.
    + by rewrite Hstep.
    + rewrite Hstep. unfold remembered; simpl. by rewrite Hs, Hc.
    + split; [done|]. rewrite Hs'. f_equal. lia.
Qed.


Lemma ledger_snoc (tr : list event) (e : event) :
  ledger (tr ++ [e]) = ledger_step (ledger tr) e.
Proof. unfold ledger. by rewrite foldl_app. Qed.

(** Calls that neither make nor free a ring. *)
Lemma ledger_other (tr : list event) (c : call) (ok : bool) (live : option (pointer * JS.int)) :
  match c with
  | network_memory_make _ _ | network_memory_free _ _ => False
  | _ => True
  end ->
  ledger tr = Some (length tr, live) ->
  ledger (tr ++ [ev c ok]) = Some (length (tr ++ [ev c ok]), live).
Proof.
  intros Hc Hl. rewrite ledger_snoc, Hl, length_app, Nat.add_1_r.
  by destruct c.
Qed.

Lemma ring_kept_other (w : World) (c : call) (ok : bool) (o : DarknetBase) :
  match c with
  | network_memory_make _ _ | network_memory_free _ _ => False
  | _ => True
  end ->
  memory o = memory (this w) -> memoryCount o = memoryCount (this w) ->
  ring_kept w ->
  ring_kept {| this := o; trace := trace w ++ [ev c ok] |}.
Proof.
  intros Hc Hm Hn Hk. unfold ring_kept in *. cbn [this trace].
  rewrite Hm, Hn. by apply ledger_other.
Qed.

Lemma ring_kept_others (w : World) (o : DarknetBase) (l : list event) :
  memory o = memory (this w) -> memoryCount o = memoryCount (this w) ->
  Forall (fun e => match ev_call e with
                   | network_memory_make _ _ | network_memory_free _ _ => False
                   | _ => True
                   end) l ->
  ring_kept w ->
  ring_kept {| this := o; trace := trace w ++ l |}.
Proof.
  intros Hm Hn Hall Hk. induction l as [|e l IH] using rev_ind.
  - rewrite app_nil_r. unfold ring_kept in *. cbn [this trace]. by rewrite Hm, Hn.
  - apply Forall_app in Hall as [Hall He]. apply Forall_inv in He.
    rewrite app_assoc. destruct e as [c ok].
    apply (ring_kept_other {| this := o; trace := trace w ++ l |} c ok o);
      [exact He | done | done | by apply IH].
Qed.

Lemma _detectAsync_ring_kept (net_ : pointer) (meta_ : METADATA) (image : IMAGE)
    (th hr nm : JS.number) (w : World) :
  ring_kept w -> ring_kept (snd (_detectAsync net_ meta_ image th hr nm w)).
Proof.
  intros Hk.
  destruct (_detectAsync_outcome net_ meta_ image th hr nm w) as (l & Htr & Hcases).
  destruct (_detectAsync _ _ _ _ _ _ _) as [r [o' tr']]. simpl in *. subst tr'.
  destruct Hcases as [(e & _ & -> & ->) | [(e & _ & -> & ->) | [(e & _ & -> & ->) |
                      [(e & _ & -> & ->) | (_ & -> & ->)]]]];
    apply ring_kept_others; try done; repeat constructor.
Qed.

Lemma invoke_ring_kept (m : method) (w : World) :
  public m -> ring_kept w -> ring_kept (invoke m w).
Proof.
  intros Hpub Hk. destruct m as [| |arg|image config|image config]; try done; cbn [invoke].
  - rewrite resetMemory_run, makeMemory_run. cbn [snd]. unfold ring_kept in *.
    cbn [this trace]. rewrite !ledger_snoc, Hk. cbn [ledger_step ev_call ev].
    rewrite decide_True by done. rewrite !length_app. simpl.
    by rewrite !Nat.add_1_r.
  - destruct image as [path | buf].
    + rewrite detectAsync_path_run. cbv zeta.
      destruct (rejects _ _) as [e|];
        [by apply (ring_kept_other w (load_image_color path 0 0) false (this w))|].
      apply (ring_kept_other w (load_image_color path 0 0) true (this w) I eq_refl eq_refl)
        in Hk.
      match goal with |- context [_detectAsync ?a1 ?a2 ?a3 ?a4 ?a5 ?a6 ?a7] =>
        pose proof (_detectAsync_ring_kept a1 a2 a3 a4 a5 a6 a7 Hk) as Hd;
        destruct (_detectAsync a1 a2 a3 a4 a5 a6 a7) as [[ds|e] w'] end;
        simpl in Hd; [|exact Hd].
      destruct (rejects _ _) as [e|]; by apply (ring_kept_other w' _ _ (this w')).
    + rewrite detectAsync_buffer_run. cbv zeta.
      destruct (rejects _ _) as [e|];
        [by apply (ring_kept_other w _ false (this w))|].
      apply _detectAsync_ring_kept.
      by apply (ring_kept_other w _ true (this w)).
  - rewrite detectFromImageAsync_run. by apply _detectAsync_ring_kept.
Qed.


End RingEdges.

(** ** Construction, beyond the checks *)

Lemma rev_app_rev_app (s acc t : string) :
  String.rev_app (String.rev_app s acc) t = String.rev_app acc (s ++ t)%string.
Proof.
  revert acc t. induction s as [|a s IH]; intros acc t; [reflexivity|].
  simpl. by rewrite IH.
Qed.

Lemma string_app_nil_r (s : string) : (s ++ EmptyString)%string = s.
Proof.
  induction s as [|a s IH]; [reflexivity|].
  change (String a (s ++ EmptyString)%string = String a s). by rewrite IH.
Qed.

Lemma split_lines_aux_line (s t acc : string) :
  newline_free s = true ->
  JS.split_lines_aux (s ++ t) acc = JS.split_lines_aux t (String.rev_app s acc).
Proof.
  revert acc. induction s as [|a s IH]; intros acc Hs; [reflexivity|].
  simpl in Hs. apply andb_true_iff in Hs as [Ha Hs].
  simpl. destruct (Ascii.eqb a "010"%char); [discriminate|]. by apply IH.
Qed.

Lemma split_lines_line (s : string) :
  newline_free s = true -> JS.split_lines s = [s].
Proof.
  intros Hs. unfold JS.split_lines.
  pose proof (split_lines_aux_line s EmptyString EmptyString Hs) as E.
  rewrite string_app_nil_r in E. rewrite E.
  simpl. unfold String.rev. rewrite rev_app_rev_app. simpl.
  by rewrite string_app_nil_r.
Qed.

Lemma split_lines_cons (s rest : string) :
  newline_free s = true ->
  JS.split_lines (s ++ newline ++ rest) = s :: JS.split_lines rest.
Proof.
  intros Hs. unfold JS.split_lines. rewrite split_lines_aux_line by done.
  simpl. unfold String.rev. rewrite rev_app_rev_app. simpl.
  by rewrite string_app_nil_r.
Qed.

(** The lines of a text joined by line feeds are found again by splitting
    it. *)
Lemma split_join_lines (lines : list string) :
  lines <> [] ->
  Forall (fun s => newline_free s = true) lines ->
  JS.split_lines (JS.join_lines lines) = lines.
Proof.
  induction lines as [|s lines IH]; [done|]. intros _ Hall.
  apply Forall_cons in Hall as [Hs Hall].
  destruct lines as [|s' lines].
  - simpl. by apply split_lines_line.
  - change (JS.join_lines (s :: s' :: lines))
      with (s ++ newline ++ JS.join_lines (s' :: lines))%string.
    rewrite split_lines_cons by done. f_equal. by apply IH.
Qed.

Section ConstructionEdges.
Context `{Library}.


Lemma filter_nonempty_id (l : list string) :
  Forall (fun n => n <> EmptyString) l ->
  List.filter (fun a => (0 <? String.length a)%nat) l = l.
Proof.
  induction 1 as [|n l Hn _ IH]; [reflexivity|].
  simpl. rewrite IH. by destruct n.
Qed.

(** X17: class names given as a list without empty strings are kept as
    they are, in order; class names read from a names file are its
    non-empty lines, in order, whether the file ends in a line feed or
    not. *)
Theorem constructor_names (cfg : IDarknetConfig) (w : World) :
  new (Some cfg) = (Ok tt, w) ->
  (forall l, config_names cfg = Some l ->
     Forall (fun n => n <> EmptyString) l -> names (this w) = l) /\
  (forall path lines,
     config_names cfg = None -> namefile cfg = Some path ->
     lines <> [] -> Forall (fun s => newline_free s = true) lines ->
     readFileSync path = inl (JS.join_lines lines) ->
     names (this w) = List.filter (fun a => (0 <? String.length a)%nat) lines).
Proof.
  intros Hnew.
  assert (Hgood : ~ turned_down (Some cfg)).
  { intros Hbad. destruct (new_turned_down _ Hbad) as [e He]. congruence. }
  rewrite (new_run cfg Hgood) in Hnew. unfold settled_names in Hnew. split.
  - intros l Hl Hne. rewrite Hl in Hnew. injection Hnew as <-.
    simpl. by apply filter_nonempty_id.
  - intros path lines Hn Hf Hlines Hfree Hread.
    rewrite Hn, Hf in Hnew. simpl in Hnew. rewrite Hread in Hnew.
    injection Hnew as <-. simpl. by rewrite split_join_lines.
Qed.

End ConstructionEdges.

(** ** The class [Darknet] *)

Section DetectorProperties.
Context `{Detector.Library}.

Ltac run_detector :=
  unfold Detector.staged, Detector.detection, Detector.NMS, Detector.interpretation,
    Detector.freeDetection, Detector._detectAsync, Detector.avgPrediction,
    Detector.rememberNet, Detector.letterboxImage, Detector.letterboxImage_js,
    Detector.freeImage, Detector.dispose, Detector.freeMemory, Detector.promise,
    Detector.settle;
  unfold mbind, Detector.M_bind, mret, Detector.M_ret, Detector.get, Detector.clock,
    Detector.modify, Detector.call_async, Detector.call_sync;
  simpl.

(** X18: calling the stages [detection], [NMS], [interpretation] and
    [freeDetection] one after the other, on the image's own width and
    height, is [_detectAsync] on the object's network and metadata: the same
    native calls, the same world, the same outcome. *)
Theorem staged_is_detectAsync (image : IMAGE) (thresh hier nms : JS.number)
    (w : Detector.World) :
  Detector.staged image thresh hier nms w
  = Detector._detectAsync (Detector.netPointer (Detector.this w))
      (Detector.meta (Detector.this w)) image thresh hier nms w.
Proof.
  run_detector.
  destruct (Detector.rejects _ _) as [e|]; [reflexivity|]. simpl.
  destruct (Detector.rejects _ _) as [e|]; [reflexivity|]. simpl.
  destruct (Detector.rejects _ _) as [e|]; [reflexivity|]. simpl.
  destruct (Detector.returns _ _) as [dets num]. simpl.
  destruct (Detector.rejects _ _) as [e|]; reflexivity.
Qed.

(** X19: [detection] frees nothing and suppresses nothing: when it returns,
    it hands its caller the array and the count the averaging returned,
    after exactly three native calls (predict, remember, average); when it
    fails, it has made at most those three. *)
Theorem detection_hands_over (image : IMAGE) (iw ih : nat) (thresh hier : JS.number)
    (w : Detector.World) :
  let o := Detector.this w in
  let t := length (Detector.trace w) in
  let c1 := Detector.shared (network_predict_image (Detector.netPointer o) image) in
  let c2 := Detector.shared (network_remember_memory (Detector.netPointer o)
                               (Detector.memory o) (Detector.memoryIndex o)) in
  let c3 := network_avg_predictions (Detector.netPointer o) (Detector.netSize o)
              (Detector.memory o)
              (JS.min (JS.succ (Detector.memorySlotsUsed o)) (Detector.memoryCount o))
              iw ih thresh hier in
  let r := Detector.detection image iw ih thresh hier w in
  exists l, Detector.trace (snd r) = Detector.trace w ++ l /\
    ((fst r = Ok (Detector.returns (t + 2) (Detector.shared c3)) /\
      l = [Detector.ev c1 true; Detector.ev c2 true; Detector.ev (Detector.shared c3) true]) \/
     (exists e, fst r = Throw e /\
        (l = [Detector.ev c1 false] \/
         l = [Detector.ev c1 true; Detector.ev c2 false] \/
         l = [Detector.ev c1 true; Detector.ev c2 true;
              Detector.ev (Detector.shared c3) false]))).
Proof.
  cbv zeta. run_detector. unfold Detector.log; simpl.
  destruct (Detector.rejects _ _) as [e|]; simpl.
  { eexists. split; [reflexivity|]. right. exists e. split; [done|]. by left. }
  destruct (Detector.rejects _ _) as [e|]; simpl.
  { eexists. rewrite <- app_assoc. split; [reflexivity|].
    right. exists e. split; [done|]. right; by left. }
  destruct (Detector.rejects _ _) as [e|]; simpl.
  { eexists. rewrite <- !app_assoc. split; [reflexivity|].
    right. exists e. split; [done|]. right; by right. }
  rewrite !length_app, <- !app_assoc, <- Nat.add_assoc. simpl.
  destruct (Detector.returns _ _) as [dets num] eqn:E. simpl.
  eexists. split; [reflexivity|]. left. by split.
Qed.


(** X21: [dispose] frees the network and the memory ring and changes
    nothing in the object: a second [dispose] hands the same network
    pointer to [free_network] and the same ring to [network_memory_free]
    once more. *)
Theorem dispose_twice (w : Detector.World) :
  let o := Detector.this w in
  let once := [Detector.ev (Detector.free_network (Detector.netPointer o)) true;
               Detector.ev (Detector.shared (network_memory_free (Detector.memory o)
                                               (Detector.memoryCount o))) true] in
  Detector.dispose w = (Ok tt, {| Detector.this := o;
                                  Detector.trace := Detector.trace w ++ once |}) /\
  (Detector.dispose;; Detector.dispose) w
  = (Ok tt, {| Detector.this := o;
               Detector.trace := Detector.trace w ++ once ++ once |}).
Proof.
  cbv zeta. run_detector. unfold Detector.log; simpl.
  rewrite <- !app_assoc. simpl.
  split; f_equal; by destruct (Detector.returns _ _).
Qed.

(** X22: the two constructors take and turn down the same configurations,
    with the same error, and settle on the same class names, metadata and
    ring; [Darknet] makes one native call more, [set_batch_network] with
    batch size 1 on the network just loaded, before it asks for the output
    size. *)
Theorem constructors_agree (config_ : option IDarknetConfig) :
  let d := Detector.new config_ in
  let b := @new (base_library H) config_ in
  fst d = fst b /\
  (forall e, fst d = Throw e ->
     snd d = {| Detector.this := Detector.blank; Detector.trace := [] |}) /\
  (fst d = Ok tt ->
     Detector.names (Detector.this (snd d)) = names (this (snd b)) /\
     Detector.meta (Detector.this (snd d)) = meta (this (snd b)) /\
     Detector.memoryCount (Detector.this (snd d)) = memoryCount (this (snd b)) /\
     Detector.memoryIndex (Detector.this (snd d)) = JS.Int 0 /\
     Detector.memorySlotsUsed (Detector.this (snd d)) = JS.Int 0 /\
     exists cfg_ weights_,
       map Detector.ev_call (Detector.trace (snd d))
       = [Detector.shared (load_network cfg_ weights_ 0);
          Detector.set_batch_network (Detector.netPointer (Detector.this (snd d))) 1;
          Detector.shared (network_output_size (Detector.netPointer (Detector.this (snd d))));
          Detector.shared (network_memory_make (Detector.memoryCount (Detector.this (snd d)))
                             (Detector.netSize (Detector.this (snd d))))]).
Proof.
  cbv zeta. unfold Detector.new, new, Detector.constructor, constructor.
  destruct config_ as [cfg|]; [|by repeat split].
  destruct (negb (bool_decide (is_Some (config_names cfg))) &&
            negb (JS.truthy_string (namefile cfg))); [by repeat split|].
  unfold mbind at 1 3, Detector.M_bind at 1, M_bind at 1.
  destruct (negb (bool_decide (is_Some (config_names cfg))) &&
            JS.truthy_string (namefile cfg)).
  - simpl. destruct (Detector.readFileSync _) as [content|e]; [|by repeat split].
    simpl.
    destruct (negb (JS.truthy_string (config cfg))); [by repeat split|].
    destruct (negb (JS.truthy_string (weights cfg))); [by repeat split|].
    split; [reflexivity|]. split; [discriminate|]. intros _.
    repeat (split; [reflexivity|]). by eexists _, _.
  - simpl. destruct (config_names cfg) as [names_|]; [|by repeat split].
    destruct (negb (JS.truthy_string (config cfg))); [by repeat split|].
    destruct (negb (JS.truthy_string (weights cfg))); [by repeat split|].
    split; [reflexivity|]. split; [discriminate|]. intros _.
    repeat (split; [reflexivity|]). by eexists _, _.
Qed.

End DetectorProperties.

(** ** The further properties at work on the sample worlds *)

Lemma rgbToDarknet_normalised_sample :
  length sample_buffer = (2 * 2 * 3)%nat /\
  Forall (fun x => normalised x = true) (rgbToDarknet sample_buffer 2 2 3).
Proof.
  split; [reflexivity|]. exact (rgbToDarknet_normalised sample_buffer 2 2 3 eq_refl).
Defined.

Lemma rgbToDarknet_short_buffer_sample :
  (length [x01; x02; x03] <= 1 * (2 * 3) + 0 * 3 + 0)%nat /\
  rgbToDarknet [x01; x02; x03] 2 2 3 !! (0 * 2 * 2 + 1 * 2 + 0)%nat = Some S754_nan.
Proof.
  assert (Hshort : (length [x01; x02; x03] <= 1 * (2 * 3) + 0 * 3 + 0)%nat)
    by (simpl; lia).
  split; [exact Hshort|].
  apply (rgbToDarknet_short_buffer [x01; x02; x03] 2 2 3 1 0 0)%nat; [lia | lia | lia |].
  exact Hshort.
Defined.

Lemma rgbToDarknet_ignores_excess_sample :
  length sample_buffer = (2 * 2 * 3)%nat /\
  rgbToDarknet (sample_buffer ++ [xaa; xbb]) 2 2 3 = rgbToDarknet sample_buffer 2 2 3.
Proof.
  split; [reflexivity|].
  exact (rgbToDarknet_ignores_excess sample_buffer [xaa; xbb] 2 2 3 eq_refl).
Defined.

Lemma imageToRGBBuffer_overwrites_sample :
  let image := {| image_w := 2; image_h := 1; image_c := 3; image_data := sample_pixels |} in
  length (imageToRGBBuffer (fun n => replicate n x07) image) = 6%nat /\
  imageToRGBBuffer (fun n => replicate n x07) image
  = imageToRGBBuffer (fun n => replicate n xff) image.
Proof.
  intros image.
  exact (imageToRGBBuffer_overwrites (fun n => replicate n x07) (fun n => replicate n xff)
           image (fun n => length_replicate n x07) (fun n => length_replicate n xff)).
Defined.

Lemma imageToRGBBuffer_non_finite_sample :
  let image := {| image_w := 2; image_h := 1; image_c := 3; image_data := sample_pixels |} in
  non_finite (sample_pixels 0%nat) = true /\
  imageToRGBBuffer (fun n => replicate n x07) image !! 0%nat = Some x00.
Proof.
  intros image. split; [reflexivity|].
  apply (imageToRGBBuffer_non_finite (fun n => replicate n x07) image 0%nat 0%nat 0%nat
           (fun n => length_replicate n x07)); [simpl; lia | simpl; lia | simpl; lia |].
  reflexivity.
Defined.

Lemma codec_roundtrip_identity_sample :
  length sample_buffer = (2 * 2 * 3)%nat /\
  imageToRGBBuffer (fun n => replicate n x07)
    {| image_w := 2; image_h := 2; image_c := 3;
       image_data := float_memory (rgbToDarknet sample_buffer 2 2 3) |} = sample_buffer.
Proof.
  split; [reflexivity|].
  exact (codec_roundtrip_identity (fun n => replicate n x07) sample_buffer 2 2 3
           (fun n => length_replicate n x07) eq_refl).
Defined.

Lemma getArrayFromBuffer_reads_sample :
  getArrayFromBuffer (det_prob sample_detection) 3 !! 2%nat = Some (JS.of_float32 half32) /\
  getArrayFromBuffer (det_prob sample_detection) 3 !! 3%nat = None.
Proof.
  destruct (getArrayFromBuffer_reads (det_prob sample_detection) 3) as (_ & Hin & Hout & _).
  split; [apply (Hin 2%nat); lia | apply (Hout 3%nat); lia].
Defined.

Lemma bufferToDetections_bounds_sample :
  let o := this (snd (@new calm (Some sample_config))) in
  (length (bufferToDetections o (fun _ => sample_detection) 2) <= 2 * 3)%nat /\
  bufferToDetections o (fun _ => sample_detection) (-1) = [].
Proof.
  intros o.
  destruct (bufferToDetections_bounds o (fun _ => sample_detection) 2) as (Hle & _ & _).
  destruct (bufferToDetections_bounds o (fun _ => sample_detection) (-1)) as (_ & Hneg & _).
  split; [exact Hle|]. apply Hneg. lia.
Defined.


Lemma detectFromImageAsync_frees_sample :
  let w := snd (@new calm (Some sample_config)) in
  let r := @detectFromImageAsync calm sample_image None w in
  (exists ds, fst r = Ok ds) /\
  count is_free_image (added w (snd r)) = 0%nat /\
  count is_free_detections (added w (snd r)) = 1%nat.
Proof.
  intros w r.
  destruct (@detectFromImageAsync_frees calm sample_image None w) as (Himg & _ & Hok & _).
  split; [by eexists|]. split; [exact Himg|]. exact (proj2 (Hok _ eq_refl)).
Defined.

Lemma detection_advances_ring_sample :
  let w := snd (@new nms_fails (Some sample_config)) in
  let r := @detectFromImageAsync nms_fails sample_image None w in
  fst r = Throw "do_nms_obj failed"%string /\
  remember_ok (added w (snd r)) = true /\
  this (snd r) = remembered (this w).
Proof.
  intros w r. split; [reflexivity|]. split; [reflexivity|].
  destruct (@detection_advances_ring nms_fails w) as [_ Hadv].
  destruct (Hadv sample_image None) as [Hthis _]. exact Hthis.
Defined.




Lemma constructor_names_sample :
  let w := snd (@new calm (Some names_file_config)) in
  let lines := ["person"; "bicycle"; ""; "car"]%string in
  @new calm (Some names_file_config) = (Ok tt, w) /\
  sample_files "coco.names" = inl (JS.join_lines lines) /\
  names (this w) = ["person"; "bicycle"; "car"]%string.
Proof.
  intros w lines.
  assert (Hnew : @new calm (Some names_file_config) = (Ok tt, w)) by reflexivity.
  split; [exact Hnew|]. split; [reflexivity|].
  destruct (@constructor_names calm names_file_config w Hnew) as [_ Hfile].
  apply (Hfile "coco.names"%string lines); try reflexivity; [discriminate|].
  repeat constructor.
Defined.

Lemma constructors_agree_sample :
  fst (@Detector.new sample_detector (Some sample_config)) = Ok tt /\
  Detector.names (Detector.this (snd (@Detector.new sample_detector (Some sample_config))))
  = names (this (snd (@new (base_library sample_detector) (Some sample_config)))).
Proof.
  destruct (@constructors_agree sample_detector (Some sample_config)) as (_ & _ & Hok).
  split; [reflexivity|]. exact (proj1 (Hok eq_refl)).
Defined.

Lemma detectAsync_hands_planar_sample :
  let w := snd (@new calm (Some sample_config)) in
  length (buf_b sample_bytes) = (buf_w sample_bytes * buf_h sample_bytes * buf_c sample_bytes)%nat /\
  Forall (fun x => normalised x = true) (rgbToDarknet sample_buffer 2 2 3) /\
  exists ok rest,
    added w (snd (@detectAsync calm (inr sample_bytes) None w))
    = ev (float_to_image 2 2 3 (rgbToDarknet sample_buffer 2 2 3)) ok :: rest.
Proof.
  intros w. split; [reflexivity|].
  destruct (@detectAsync_hands_planar calm sample_bytes None w eq_refl)
    as (_ & Hnorm & ok & rest & Hadded & _).
  split; [exact Hnorm|]. exists ok, rest. exact Hadded.
Defined.
